(** * A shallow embedding of darjeeling's [generation::NeuralNetwork]
    (src/src/generation.rs) and proofs about it.

    Conventions of the embedding.
    - [f32] values are rationals [Q] (rounding is not modelled).
    - [usize] and [i32] values are [nat] and [Z]; arithmetic that Rust
      checks for overflow panics as in a debug build.
    - A Rust panic is the outcome [RPanic]; a [Result::Err] is [RErr].
    - Code is run in a state-and-outcome monad [M St A]: the state is
      returned in every outcome, as side effects on the file system stay
      done when the program stops. *)

From Stdlib Require Import QArith ZArith Ascii String List Lia Lqa.
From stdpp Require Import base list gmap strings pretty.

Open Scope Q_scope.

(** ** Errors, outcomes and the monad *)

Inductive DarjeelingError : Type :=
| WriteModelFailed (s : string)
| ReadModelFailed (s : string)
| RemoveModelFailed (s : string)
| DisinguishingModelError (s : string)
| SelfAnalysisStringConversion (s : string)
| UnknownError (s : string).

Inductive Res (A : Type) : Type :=
| ROk (a : A)
| RErr (e : DarjeelingError)
| RPanic
| RDiverge.
Arguments ROk {A} a.
Arguments RErr {A} e.
Arguments RPanic {A}.
Arguments RDiverge {A}.

Definition M (St A : Type) : Type := St -> Res A * St.

Definition ret {St A} (a : A) : M St A := fun s => (ROk a, s).

Definition bind {St A B} (m : M St A) (k : A -> M St B) : M St B :=
  fun s =>
    match m s with
    | (ROk a, s') => k a s'
    | (RErr e, s') => (RErr e, s')
    | (RPanic, s') => (RPanic, s')
    | (RDiverge, s') => (RDiverge, s')
    end.

Notation "x <- m ;; k" := (bind m (fun x => k))
  (at level 100, m at next level, right associativity).
Notation "m ;;; k" := (bind m (fun _ => k))
  (at level 100, right associativity).

Definition panic {St A} : M St A := fun s => (RPanic, s).
Definition throw {St A} (e : DarjeelingError) : M St A := fun s => (RErr e, s).
Definition get {St} : M St St := fun s => (ROk s, s).
Definition put {St} (s : St) : M St unit := fun _ => (ROk tt, s).

(** [Option::unwrap] and bounds-checked indexing [v[i]]. *)
Definition unwrap {St A} (o : option A) : M St A :=
  match o with Some a => ret a | None => panic end.
Definition index {St A} (l : list A) (i : nat) : M St A := unwrap (l !! i).

(** [v[i] = x] for a [Vec]: panics out of range. *)
Definition vec_set {St A} (l : list A) (i : nat) (x : A) : M St (list A) :=
  _ <- index l i ;; ret (<[i := x]> l).

(** Running a computation on a part of the state. *)
Definition zoom {St T A} (getf : St -> T) (setf : T -> St -> St) (m : M T A)
  : M St A :=
  fun s => let (r, t) := m (getf s) in (r, setf t s).

(** [for i in lo..lo+n { body(i) }] *)
Fixpoint for_range {St} (lo n : nat) (body : nat -> M St unit) : M St unit :=
  match n with
  | O => ret tt
  | S n' => body lo ;;; for_range (S lo) n' body
  end.

(** [for i in lo..lo+n { v.push(body(i)) }], collecting the pushed values. *)
Fixpoint for_collect {St A} (lo n : nat) (body : nat -> M St A)
  : M St (list A) :=
  match n with
  | O => ret []
  | S n' => x <- body lo ;; xs <- for_collect (S lo) n' body ;; ret (x :: xs)
  end.

(** ** Data model *)

(** [activation::ActivationFunction] *)
Inductive ActivationFunction : Type := Sigmoid | Linear | Tanh | Step.

(** [types::Types]; the [String] variant is renamed, [String] being the
    constructor of [string]. *)
Inductive Types : Type :=
| Integer (z : Z)
| Float (q : Q)
| Boolean (b : bool)
| Types_String (s : string).

(** [input::Input] *)
Module Input.
Record t : Type := mk { inputs : list Q; answer : option Types }.
(** [Input::new] *)
Definition new (inputs : list Q) (answer : option Types) : t := mk inputs answer.
End Input.

(** [node::Node] *)
Record Node : Type := mkNode {
  link_weights : list Q;
  link_vals : list (option Q);
  links : nat;
  err_sig : option Q;
  correct_answer : option Types;
  cached_output : option Q;
  category : option Types;
  b_weight : option Q
}.

Definition set_cached_output (n : Node) (v : option Q) : Node :=
  mkNode (link_weights n) (link_vals n) (links n) (err_sig n)
    (correct_answer n) v (category n) (b_weight n).
Definition set_link_vals (n : Node) (lv : list (option Q)) : Node :=
  mkNode (link_weights n) lv (links n) (err_sig n)
    (correct_answer n) (cached_output n) (category n) (b_weight n).
Definition set_err_sig (n : Node) (e : option Q) : Node :=
  mkNode (link_weights n) (link_vals n) (links n) e
    (correct_answer n) (cached_output n) (category n) (b_weight n).
Definition set_weights (n : Node) (ws : list Q) (b : option Q) : Node :=
  mkNode ws (link_vals n) (links n) (err_sig n)
    (correct_answer n) (cached_output n) (category n) b.

(** [generation::NeuralNetwork]; [parameters : Option<u128>] as [option Z]. *)
Record NeuralNetwork : Type := mkNet {
  node_array : list (list Node);
  sensor : option nat;
  answer : option nat;
  parameters : option Z;
  activation_function : ActivationFunction
}.

Definition set_node_array (net : NeuralNetwork) (na : list (list Node)) :=
  mkNet na (sensor net) (answer net) (parameters net) (activation_function net).

(** ** Operations on the network state *)

Definition layer_len (l : nat) : M NeuralNetwork nat :=
  net <- get ;; layer <- index (node_array net) l ;; ret (length layer).

(** [self.node_array[l][i]] *)
Definition get_node (l i : nat) : M NeuralNetwork Node :=
  net <- get ;; layer <- index (node_array net) l ;; index layer i.

(** [self.node_array[l][i] = n] *)
Definition put_node (l i : nat) (n : Node) : M NeuralNetwork unit :=
  net <- get ;;
  layer <- index (node_array net) l ;;
  layer' <- vec_set layer i n ;;
  put (set_node_array net (<[l := layer']> (node_array net))).


(** ** The environment: file system and random source *)

(** The file system: file contents by path, the paths whose existence
    cannot be queried ([try_exists] fails) and the paths that cannot be
    created, written or removed. The random source ([thread_rng]) is a
    stream of draws with a read position. *)
Record World : Type := mkWorld {
  w_files : gmap string string;
  w_nostat : gset string;
  w_nowrite : gset string;
  w_rng : nat -> Z;
  w_pos : nat
}.

Definition set_files (w : World) (fs : gmap string string) : World :=
  mkWorld fs (w_nostat w) (w_nowrite w) (w_rng w) (w_pos w).

(** One draw from the random source. *)
Definition draw : M World Z := fun w =>
  (ROk (w_rng w (w_pos w)),
   mkWorld (w_files w) (w_nostat w) (w_nowrite w) (w_rng w) (S (w_pos w))).

(** [slice.swap(i, j)] *)
Definition swap {A} (i j : nat) (l : list A) : list A :=
  match l !! i, l !! j with
  | Some x, Some y => <[i := y]> (<[j := x]> l)
  | _, _ => l
  end.

(** [SliceRandom::shuffle] (rand 0.8): for [i] from [len - 1] down to 1,
    swap element [i] with a uniformly drawn index [j] in [0..=i]. *)
Fixpoint shuffle_down {A} (k : nat) (l : list A) : M World (list A) :=
  match k with
  | O => ret l
  | S k' =>
      r <- draw ;;
      shuffle_down k' (swap (S k') (Z.to_nat (r mod Z.of_nat (S (S k')))%Z) l)
  end.

Definition shuffle {A} (l : list A) : M World (list A) :=
  shuffle_down (length l - 1) l.

(** The state of a training or inference call: the network ([self]), the
    caller's samples ([data]) and the environment. *)
Record Sys : Type := mkSys {
  sys_net : NeuralNetwork;
  sys_data : list Input.t;
  sys_world : World
}.

Definition on_net {A} (m : M NeuralNetwork A) : M Sys A :=
  zoom sys_net (fun n s => mkSys n (sys_data s) (sys_world s)) m.
Definition on_world {A} (m : M World A) : M Sys A :=
  zoom sys_world (fun w s => mkSys (sys_net s) (sys_data s) w) m.
Definition set_data (d : list Input.t) : M Sys unit :=
  fun s => (ROk tt, mkSys (sys_net s) d (sys_world s)).

(** [data.shuffle(&mut thread_rng())] *)
Definition shuffle_data : M Sys unit :=
  s <- get ;; d <- on_world (shuffle (sys_data s)) ;; set_data d.

Section Forward.

(** The activation functions of [activation.rs] are outside the sources
    (and outside the spec's scope); they are a parameter. *)
Variable activate : ActivationFunction -> Q -> Q.

(** Modelled from the spec: [Node::output] (node.rs is not in the sources).
    Section 4.2: the node's output is the weighted sum of its link values
    plus its bias, passed through the activation function; it is cached in
    [cached_output] and returned. A link value not yet populated counts
    as 0 in the sum. *)
Definition weighted_sum (n : Node) : Q :=
  fold_left (fun acc wv => acc + fst wv * default 0 (snd wv))
    (combine (link_weights n) (link_vals n)) (default 0 (b_weight n)).

Definition output (af : ActivationFunction) (n : Node) : Q * Node :=
  let v := activate af (weighted_sum n) in (v, set_cached_output n (Some v)).

(** [self.node_array[l][i].output(&self.activation_function)] *)
Definition node_output_at (l i : nat) : M NeuralNetwork Q :=
  net <- get ;;
  n <- get_node l i ;;
  let (v, n') := output (activation_function net) n in
  put_node l i n' ;;; ret v.

(** [NeuralNetwork::push_downstream] *)
Definition push_downstream (data : list Input.t) (line : nat)
  : M NeuralNetwork unit :=
  net <- get ;;
  s <- unwrap (sensor net) ;;
  w <- layer_len s ;;
  for_range 0 w (fun i =>
    sample <- index data line ;;
    input <- index (Input.inputs sample) i ;;
    net <- get ;;
    s <- unwrap (sensor net) ;;
    n <- get_node s i ;;
    put_node s i (set_cached_output n (Some input))) ;;;
  net <- get ;;
  for_range 1 (length (node_array net) - 1) (fun layer =>
    len <- layer_len layer ;;
    for_range 0 len (fun node =>
      plen <- layer_len (layer - 1) ;;
      for_range 0 plen (fun prev_node =>
        p <- get_node (layer - 1) prev_node ;;
        v <- unwrap (cached_output p) ;;
        n <- get_node layer node ;;
        lv <- vec_set (link_vals n) prev_node (Some v) ;;
        put_node layer node (set_link_vals n lv) ;;;
        node_output_at layer node ;;; ret tt) ;;;
      node_output_at layer node ;;; ret tt)).

(** The answer-layer loop of [learn] and [test]:
    [for i in 0..len { output.push(answer_node[i].output(..)) }] *)
Definition answer_outputs : M NeuralNetwork (list Q) :=
  net <- get ;;
  a <- unwrap (answer net) ;;
  len <- layer_len a ;;
  for_collect 0 len (fun i =>
    net <- get ;; a <- unwrap (answer net) ;; node_output_at a i).

(** [NeuralNetwork::test] *)
Definition test : M Sys (list Input.t) :=
  shuffle_data ;;;
  s <- get ;;
  let data := sys_data s in
  for_collect 0 (length data) (fun i =>
    on_net (push_downstream data i) ;;;
    output <- on_net answer_outputs ;;
    ret (Input.new output None)).

End Forward.

(** ** Backpropagation *)

(** Checked [i32] addition and the [as usize] cast (64-bit target). *)
Definition i32_add {St} (a b : Z) : M St Z :=
  if ((-2147483648 <=? a + b) && (a + b <=? 2147483647))%Z
  then ret (a + b)%Z else panic.
Definition as_usize (z : Z) : Z := (z mod 2 ^ 64)%Z.

(** Modelled from the spec: [Node::adjust_weights] (node.rs is not in the
    sources). Section 4.3: [weight -= learning_rate * error_signal *
    input_value] for every link, and [bias -= learning_rate *
    error_signal]. An unset error signal or link value counts as 0. *)
Definition adjust_weights (learning_rate : Q) (n : Node) : Node :=
  let e := default 0 (err_sig n) in
  set_weights n
    (imap (fun k w => w - learning_rate * e * default 0 (mjoin (link_vals n !! k)))
       (link_weights n))
    (option_map (fun b => b - learning_rate * e) (b_weight n)).

Section Backward.

(** [Node::compute_answer_err_sig_gen] is not in the sources, and the spec
    says only that it computes the answer node's error signal from the loss
    term: the value it stores is a parameter. *)
Variable answer_err : Node -> Q -> Q.

Definition compute_answer_err_sig_gen (mse : Q) (n : Node) : Node :=
  set_err_sig n (Some (answer_err n mse)).

(** [NeuralNetwork::adjust_hidden_weights] *)
Definition adjust_hidden_weights (learning_rate : Q) (hidden_layers : Z)
  : M NeuralNetwork unit :=
  top <- i32_add hidden_layers 1 ;;
  for_range 1 (Z.to_nat (as_usize top) - 1) (fun HIDDEN =>
    len <- layer_len HIDDEN ;;
    for_range 0 len (fun hidden =>
      n <- get_node HIDDEN hidden ;;
      put_node HIDDEN hidden (set_err_sig n (Some 0)) ;;;
      nlen <- layer_len (HIDDEN + 1) ;;
      for_range 0 nlen (fun next_layer =>
        m <- get_node (HIDDEN + 1) next_layer ;;
        next_weight <- index (link_weights m) hidden ;;
        put_node (HIDDEN + 1) next_layer
          (set_err_sig m (match err_sig m with
                          | None => Some 0
                          | Some _ => err_sig m
                          end)) ;;;
        n <- get_node HIDDEN hidden ;;
        e <- unwrap (err_sig n) ;;
        m <- get_node (HIDDEN + 1) next_layer ;;
        em <- unwrap (err_sig m) ;;
        put_node HIDDEN hidden (set_err_sig n (Some (e + em * next_weight)))) ;;;
      n <- get_node HIDDEN hidden ;;
      hidden_result <- unwrap (cached_output n) ;;
      e <- unwrap (err_sig n) ;;
      put_node HIDDEN hidden
        (set_err_sig n (Some (e * hidden_result * (1 - hidden_result)))) ;;;
      n <- get_node HIDDEN hidden ;;
      put_node HIDDEN hidden (adjust_weights learning_rate n))).

(** [for answer in 0..len { self.node_array[a][answer].f() }] *)
Definition for_answer_nodes (f : Node -> Node) : M NeuralNetwork unit :=
  net <- get ;;
  a <- unwrap (answer net) ;;
  len <- layer_len a ;;
  for_range 0 len (fun i =>
    net <- get ;;
    a <- unwrap (answer net) ;;
    n <- get_node a i ;;
    put_node a i (f n)).

(** [NeuralNetwork::backpropogate] *)
Definition backpropogate (learning_rate : Q) (hidden_layers : Z) (mse : Q)
  : M NeuralNetwork unit :=
  for_answer_nodes (compute_answer_err_sig_gen mse) ;;;
  adjust_hidden_weights learning_rate hidden_layers ;;;
  for_answer_nodes (adjust_weights learning_rate).

(** The reference of the spec's Section 4.3, in two phases: first every
    error signal (answer layer from the loss term, then the hidden layers
    from the last one back to the first, node [n] of layer [L] getting
    [(sum over m in L+1 of err(m) * weight(m->n)) * o(n) * (1 - o(n))]),
    then every weight adjustment. *)
Definition hidden_err_spec (next : list Node) (h : nat) (n : Node) : Q :=
  let s := fold_left
             (fun acc m => acc + default 0 (err_sig m) * default 0 (link_weights m !! h))
             next 0 in
  let o := default 0 (cached_output n) in
  s * o * (1 - o).

Definition set_hidden_errs_spec (L : nat) (na : list (list Node))
  : list (list Node) :=
  let next := default [] (na !! S L) in
  alter (fun layer => imap (fun h n => set_err_sig n (Some (hidden_err_spec next h n))) layer)
    L na.

(** Layers [k], [k-1], ..., [1], in that order. *)
Fixpoint hidden_errs_backward (k : nat) (na : list (list Node))
  : list (list Node) :=
  match k with
  | O => na
  | S k' => hidden_errs_backward k' (set_hidden_errs_spec k na)
  end.

Definition backprop_two_phase (learning_rate mse : Q) (hidden_layers : nat)
  (na : list (list Node)) : list (list Node) :=
  let na1 := alter (map (compute_answer_err_sig_gen mse)) (S hidden_layers) na in
  let na2 := hidden_errs_backward hidden_layers na1 in
  imap (fun L layer =>
          if decide (1 <= L <= S hidden_layers)%nat then map (adjust_weights learning_rate) layer
          else layer) na2.

End Backward.

(** ** Construction *)

(** Modelled from the spec: [Node::new(&weights, b_weight)] (node.rs is not
    in the sources): a node with the given weights, one unpopulated link
    value per weight, [links] the number of weights, and the given bias. *)
Definition node_new (ws : list Q) (b : option Q) : Node :=
  mkNode ws (replicate (length ws) None) (length ws) None None None None b.

(** [Node { link_weights: vec![], link_vals: vec![], links, .. }] of the
    hidden and answer layers of [new]. *)
Definition node_unlinked (links : nat) (out : option Q) : Node :=
  mkNode [] [] links None None out None None.

(** Checked [usize] addition (64-bit target). *)
Definition usize_add {St} (a b : Z) : M St Z :=
  if (a + b <? 2 ^ 64)%Z then ret (a + b)%Z else panic.

(** [rng.gen_range(-0.5..0.5)]: a draw mapped to a 24-bit value in
    [-1/2, 1/2). *)
Definition gen_weight : M World Q :=
  r <- draw ;; ret (inject_Z (r mod 2 ^ 24)%Z / inject_Z (2 ^ 24)%Z - (1 # 2)).

(** [mapM] for the nested [for layer in &mut node_array { for node in layer }]
    loops. *)
Fixpoint mapM {St A B} (f : A -> M St B) (l : list A) : M St (list B) :=
  match l with
  | [] => ret []
  | x :: l' => y <- f x ;; ys <- mapM f l' ;; ret (y :: ys)
  end.

(** The initialisation loop body for one node: a random bias, then one random
    weight and one [None] link value per link. *)
Definition init_node (n : Node) : M World Node :=
  b <- gen_weight ;;
  ws <- for_collect 0 (links n) (fun _ => gen_weight) ;;
  ret (mkNode (link_weights n ++ ws) (link_vals n ++ replicate (links n) None)
         (links n) (err_sig n) (correct_answer n) (cached_output n)
         (category n) (Some b)).

(** [for i in 1..hidden_layers + 1]: layer [i] gets [hidden_num] nodes with
    [node_array[i - 1].len()] links each. *)
Fixpoint build_hidden (count hidden_num : nat) (na : list (list Node))
  : list (list Node) :=
  match count with
  | O => na
  | S c =>
      let hidden_links := length (default [] (na !! (length na - 1)%nat)) in
      build_hidden c hidden_num (na ++ [replicate hidden_num (node_unlinked hidden_links None)])
  end.

(** The parameter-count loop of [new]: [params += 1 + links] over every node. *)
Definition count_params (na : list (list Node)) : Z :=
  fold_left (fun acc layer =>
    fold_left (fun acc n => acc + 1 + Z.of_nat (links n))%Z layer acc) na 0%Z.

(** [NeuralNetwork::new] *)
Definition new (pixel_input hidden_num pixel_output hidden_layers : Z)
  (af : ActivationFunction) : M World NeuralNetwork :=
  a <- usize_add (as_usize hidden_layers) 1 ;;
  let na := [replicate (Z.to_nat pixel_input) (node_new [] None)] in
  top <- i32_add hidden_layers 1 ;;
  let na := build_hidden (Z.to_nat (top - 1)) (Z.to_nat hidden_num) na in
  let na := na ++ [[]] in
  prev <- index na (Z.to_nat (as_usize hidden_layers)) ;;
  let answer_links := length prev in
  na <- (if decide (Z.to_nat pixel_output = 0)%nat then ret na
         else alayer <- index na (Z.to_nat a) ;;
              ret (<[Z.to_nat a := alayer ++ replicate (Z.to_nat pixel_output)
                                     (node_unlinked answer_links (Some 0))]> na)) ;;
  na <- mapM (mapM init_node) na ;;
  ret (mkNet na (Some 0%nat) (Some (Z.to_nat a)) (Some (count_params na)) af).

(** The spec's count: the sum over all nodes of [links + 1]. *)
Definition params_spec (na : list (list Node)) : Z :=
  foldr (fun n acc => Z.of_nat (links n) + 1 + acc)%Z 0%Z (concat na).

(** ** Text *)

Definition nl : string := String "010"%char EmptyString.

Definition is_digit (c : ascii) : bool :=
  let n := nat_of_ascii c in (48 <=? n)%nat && (n <=? 57)%nat.

(** [char::is_whitespace] on ASCII. *)
Definition is_ws (c : ascii) : bool :=
  let n := nat_of_ascii c in ((9 <=? n)%nat && (n <=? 13)%nat) || (n =? 32)%nat.

(** [str::split] with a one-character pattern: every piece, empty ones
    included. *)
Fixpoint split_char (c : ascii) (s : string) : list string :=
  match s with
  | EmptyString => [EmptyString]
  | String x s' =>
      let rest := split_char c s' in
      if Ascii.eqb x c then EmptyString :: rest
      else match rest with
           | [] => [String x EmptyString]
           | r :: rs => String x r :: rs
           end
  end.

Definition string_rev (s : string) : string :=
  string_of_list_ascii (rev (list_ascii_of_string s)).

(** [str::lines]: split at ["\n"], no final empty line when the text ends
    with a newline, one trailing ["\r"] removed from each line. *)
Definition strip_cr (s : string) : string :=
  match string_rev s with
  | String c r => if Ascii.eqb c "013"%char then string_rev r else s
  | EmptyString => s
  end.

Definition lines (s : string) : list string :=
  let ps := split_char "010"%char s in
  let ps := match last ps with
            | Some EmptyString => removelast ps
            | _ => ps
            end in
  map strip_cr ps.

(** [str::trim] *)
Fixpoint trim_start (s : string) : string :=
  match s with
  | EmptyString => EmptyString
  | String c s' => if is_ws c then trim_start s' else s
  end.
Definition trim (s : string) : string :=
  string_rev (trim_start (string_rev (trim_start s))).

Fixpoint digits_val (s : string) (acc : Z) : option Z :=
  match s with
  | EmptyString => Some acc
  | String c s' =>
      if is_digit c then digits_val s' (10 * acc + Z.of_nat (nat_of_ascii c - 48))%Z
      else None
  end.

(** [str::parse::<f32>] on decimal notation: an optional sign, digits, an
    optional fraction; at least one digit. (Rust also accepts exponents,
    [inf] and [NaN]; no model file written by [write_model] uses them.) *)
Definition parse_unsigned (s : string) : option Q :=
  match split_char "."%char s with
  | [i] =>
      if String.eqb i EmptyString then None
      else z ← digits_val i 0%Z; Some (inject_Z z)
  | [i; f] =>
      if String.eqb i EmptyString && String.eqb f EmptyString then None
      else zi ← digits_val i 0%Z;
           zf ← digits_val f 0%Z;
           let d := (10 ^ Z.of_nat (String.length f))%Z in
           Some (Qred (inject_Z (zi * d + zf) / inject_Z d))
  | _ => None
  end.

Definition parse_f32 (s : string) : option Q :=
  match s with
  | String c r =>
      if Ascii.eqb c "-"%char then option_map Qopp (parse_unsigned r)
      else if Ascii.eqb c "+"%char then parse_unsigned r
      else parse_unsigned s
  | EmptyString => None
  end.

(** [Display] of [f32] on values with a finite decimal expansion (every
    [f32] value has one, of at most 149 decimals): the exact decimal, with
    no exponent and no trailing [.0]. *)
Fixpoint dec_places (fuel k : nat) (q : Q) : nat :=
  match fuel with
  | O => k
  | S f =>
      if (Qnum q * 10 ^ Z.of_nat k mod Zpos (Qden q) =? 0)%Z then k
      else dec_places f (S k) q
  end.

Definition pad_zeros (m : nat) (s : string) : string :=
  String.concat "" (replicate (m - String.length s) "0") +:+ s.

Definition fmt_f32 (q0 : Q) : string :=
  let q := Qred q0 in
  let k := dec_places 150 0 q in
  let a := (Z.abs (Qnum q) * 10 ^ Z.of_nat k / Zpos (Qden q))%Z in
  let ds := pad_zeros (S k) (pretty (Z.to_N a)) in
  let n := String.length ds in
  (if (Qnum q <? 0)%Z then "-" else "") +:+ substring 0 (n - k) ds +:+
  (if (k =? 0)%nat then "" else "." +:+ substring (n - k) k ds).

(** Modelled from the spec: the [Display] of [ActivationFunction]
    (activation.rs is not in the sources): the names of Section 4.6. *)
Definition activation_name (af : ActivationFunction) : string :=
  match af with
  | Sigmoid => "sigmoid"
  | Linear => "linear"
  | Tanh => "tanh"
  | Step => "step"
  end.

(** ** The file system *)

Definition io_error : string := "No such file or directory (os error 2)".

(** [Path::try_exists]: [None] is [Err]. *)
Definition try_exists (p : string) : M World (option bool) := fun w =>
  (ROk (if decide (p ∈ w_nostat w) then None
        else Some (bool_decide (is_Some (w_files w !! p)))), w).

(** [File::create] (creates or truncates) and [fs::write]: [None] is [Err]. *)
Definition fs_write (p contents : string) : M World (option unit) := fun w =>
  if decide (p ∈ w_nowrite w) then (ROk None, w)
  else (ROk (Some tt), set_files w (<[p := contents]> (w_files w))).

(** [fs::read_to_string] *)
Definition read_to_string (p : string) : M World (option string) := fun w =>
  (ROk (w_files w !! p), w).

(** [fs::remove_file] *)
Definition remove_file (p : string) : M World (option unit) := fun w =>
  if decide (p ∈ w_nowrite w) then (ROk None, w)
  else match w_files w !! p with
       | Some _ => (ROk (Some tt), set_files w (delete p (w_files w)))
       | None => (ROk None, w)
       end.

(** ** The model codec *)

(** The weights of one line of [write_model]: [w,] for every weight but the
    last, [w] for the last. *)
Definition weights_text (ws : list Q) : string :=
  String.concat ""
    (imap (fun k w => if decide (k = length ws - 1)%nat then fmt_f32 w
                      else fmt_f32 w +:+ ",") ws).

(** The line of one node: [weights;bias] and a newline;
    [b_weight.unwrap()] panics on a node without bias. *)
Definition node_text {St} (n : Node) : M St string :=
  b <- unwrap (b_weight n) ;;
  ret (weights_text (link_weights n) +:+ ";" +:+ fmt_f32 b +:+ nl).

Fixpoint concatM {St} (l : list (M St string)) : M St string :=
  match l with
  | [] => ret ""
  | m :: l' => x <- m ;; y <- concatM l' ;; ret (x +:+ y)
  end.

(** The text built by [write_model]: the layers, each but the first
    preceded by an [lb] line, then an [lb] line and the activation name. *)
Definition serialize {St} (net : NeuralNetwork) : M St string :=
  body <- concatM
            (imap (fun i layer =>
                     nodes <- concatM (map node_text layer) ;;
                     ret ((if (i =? 0)%nat then "" else "lb" +:+ nl) +:+ nodes))
               (node_array net)) ;;
  ret (body +:+ "lb" +:+ nl +:+ activation_name (activation_function net)).

(** The file name of [write_model]: [format!("model_{}_{}.darj", name,
    file_num)]. *)
Definition model_file_name (name : string) (file_num : Z) : string :=
  "model_" +:+ name +:+ "_" +:+ pretty (Z.to_N file_num) +:+ ".darj".

(** [NeuralNetwork::write_model]. Its recursion on a name collision is
    bounded by [fuel]; running out of it ([RDiverge]) stands for a run that
    keeps drawing taken names. *)
Fixpoint write_model (fuel : nat) (net : NeuralNetwork) (name : string)
  : M World string :=
  match fuel with
  | O => fun w => (RDiverge, w)
  | S fuel' =>
      r <- draw ;;
      let file_num := (r mod 2 ^ 32)%Z in
      let model_name := model_file_name name file_num in
      ex <- try_exists model_name ;;
      match ex with
      | Some false =>
          created <- fs_write model_name "" ;;
          unwrap created ;;;
          serialized <- serialize net ;;
          written <- fs_write model_name serialized ;;
          match written with
          | Some _ => ret model_name
          | None => throw (WriteModelFailed model_name)
          end
      | Some true => write_model fuel' net name
      | None => throw (UnknownError io_error)
      end
  end.

(** One node line of [read_model]. *)
Definition read_node {St} (layers_read : nat) (i : string) : M St Node :=
  if (layers_read =? 0)%nat then
    let b_weight := split_char ";"%char i in
    bs <- index b_weight 1 ;;
    b <- unwrap (parse_f32 bs) ;;
    ret (node_new [] (Some b))
  else
    let node_data := split_char ";"%char (trim i) in
    ws <- index node_data 0 ;;
    let str_weight_array := split_char ","%char ws in
    b_weight <- index node_data 1 ;;
    weight_array <- mapM (fun s => unwrap (parse_f32 s)) str_weight_array ;;
    b <- unwrap (parse_f32 b_weight) ;;
    ret (node_new weight_array (Some b)).

(** The line loop of [read_model]. *)
Fixpoint read_lines {St} (ls : list string) (na : list (list Node))
  (layer : list Node) (act : option ActivationFunction)
  : M St (list (list Node) * option ActivationFunction) :=
  match ls with
  | [] => ret (na, act)
  | i :: ls' =>
      if String.eqb i "sigmoid" then read_lines ls' na layer (Some Sigmoid)
      else if String.eqb i "linear" then read_lines ls' na layer (Some Linear)
      else if String.eqb i "tanh" then read_lines ls' na layer (Some Tanh)
      else if String.eqb i "step" then read_lines ls' na layer (Some Step)
      else if String.eqb (trim i) "lb" then read_lines ls' (na ++ [layer]) [] act
      else node <- read_node (length na) i ;;
           read_lines ls' na (layer ++ [node]) act
  end.

(** Checked [usize] subtraction. *)
Definition usize_sub {St} (a b : nat) : M St nat :=
  if (b <=? a)%nat then ret (a - b)%nat else panic.

(** [NeuralNetwork::read_model] *)
Definition read_model (model_name : string) : M World NeuralNetwork :=
  c <- read_to_string model_name ;;
  match c with
  | None => throw (ReadModelFailed (model_name +:+ ";" +:+ io_error))
  | Some serialized_net =>
      r <- read_lines (lines serialized_net) [] [] None ;;
      let (na, act) := r in
      ans <- usize_sub (length na) 1 ;;
      af <- unwrap act ;;
      ret (mkNet na (Some 0%nat) (Some ans) None af)
  end.

(** ** The adversarial training loop *)

(** [Result::unwrap] on a fallible computation: an [Err] panics. *)
Definition unwrap_result {St A} (m : M St A) : M St A := fun s =>
  match m s with
  | (RErr _, s') => (RPanic, s')
  | r => r
  end.

(** [match m { Ok(a) => .., Err(e) => .. }]: the error as a value. *)
Definition try_res {St A} (m : M St A) : M St (A + DarjeelingError) := fun s =>
  match m s with
  | (ROk a, s') => (ROk (inl a), s')
  | (RErr e, s') => (ROk (inr e), s')
  | (RPanic, s') => (RPanic, s')
  | (RDiverge, s') => (RDiverge, s')
  end.

Definition error_string (e : DarjeelingError) : string :=
  match e with
  | WriteModelFailed s | ReadModelFailed s | RemoveModelFailed s
  | DisinguishingModelError s | SelfAnalysisStringConversion s
  | UnknownError s => s
  end.

(** [for i in lo..lo+n] with a value threaded through the iterations. *)
Fixpoint for_fold {St A} (lo n : nat) (body : nat -> A -> M St A) (acc : A)
  : M St A :=
  match n with
  | O => ret acc
  | S n' => acc' <- body lo acc ;; for_fold (S lo) n' body acc'
  end.

(** [usize as i32] *)
Definition as_i32 (n : nat) : Z :=
  ((Z.of_nat n + 2 ^ 31) mod 2 ^ 32 - 2 ^ 31)%Z.

Section Learn.

Variable activate : ActivationFunction -> Q -> Q.
Variable answer_err : Node -> Q -> Q.

(** The distinguishing model is a [categorize::NeuralNetwork]; that module
    is not in the sources, so its type and its [new], [read_model] and
    [learn] are parameters: what is proved below holds for every
    implementation of them. [cat_learn] gets the samples by [&mut] and
    returns the model name, the error percentage and the mean squared
    error. *)
Variable CatNet : Type.
Variable cat_new : Z -> Z -> Z -> Z -> ActivationFunction -> World ->
  option CatNet * World.
(** [categorize::NeuralNetwork::new] returns a network or panics ([None]). *)
Definition run_cat_new (i h o l : Z) (af : ActivationFunction) : M World CatNet :=
  fun w => let (r, w') := cat_new i h o l af w in
           (match r with Some c => ROk c | None => RPanic end, w').
Variable cat_read_model : string -> M World CatNet.
Variable cat_learn : CatNet -> list Input.t -> list Types -> Q -> string ->
  M (list Input.t * World) (string * Q * Q).

(** Bounds the recursion of [write_model]. *)
Variable write_fuel : nat.

(** [new_model.learn(samples, vec![Boolean(true), Boolean(false)], ..)] on
    the given samples; the samples are returned as it leaves them. *)
Definition run_cat_learn (new_model : CatNet) (samples : list Input.t)
  (dlr : Q) (name : string)
  : M Sys ((string * Q * Q + DarjeelingError) * list Input.t) := fun s =>
  let (r, st) := try_res (cat_learn new_model samples [Boolean true; Boolean false]
                            dlr ("distinguishing" +:+ name)) (samples, sys_world s) in
  let (samples', w') := st in
  (match r with
   | ROk x => ROk (x, samples')
   | RErr e => RErr e
   | RPanic => RPanic
   | RDiverge => RDiverge
   end, mkSys (sys_net s) (sys_data s) w').

(** The sample loop of one epoch: a forward pass per sample, whose answer
    outputs are pushed as a fake sample, then the sample itself, marked
    real. *)
Definition epoch_samples (outputs : list Input.t) : M Sys (list Input.t) :=
  s <- get ;;
  for_fold 0 (length (sys_data s)) (fun line outputs =>
    s <- get ;;
    on_net (push_downstream activate (sys_data s) line) ;;;
    output <- on_net (answer_outputs activate) ;;
    let outputs := outputs ++ [Input.new output (Some (Boolean false))] in
    s <- get ;;
    smp <- index (sys_data s) line ;;
    let smp' := Input.mk (Input.inputs smp) (Some (Boolean true)) in
    data' <- vec_set (sys_data s) line smp' ;;
    set_data data' ;;;
    ret (outputs ++ [smp'])) outputs.

(** The epochs of [learn]: the model name and the [outputs] collection are
    threaded from one epoch to the next. *)
Fixpoint learn_epochs (k : nat) (learning_rate dlr : Q) (name : string)
  (dhn dhl : Z) (da : ActivationFunction) (hidden_layers : nat)
  (model_name : option string) (outputs : list Input.t) : M Sys unit :=
  match k with
  | O => ret tt
  | S k' =>
      shuffle_data ;;;
      outputs <- epoch_samples outputs ;;
      r <- (match model_name with
            | Some mn =>
                new_model <- on_world (unwrap_result (cat_read_model mn)) ;;
                rm <- on_world (remove_file mn) ;;
                match rm with
                | Some _ =>
                    lr <- run_cat_learn new_model outputs dlr name ;;
                    let (res, outputs) := lr in
                    match res with
                    | inl (n, _, errmse) => ret (errmse, Some n, outputs)
                    | inr e => throw (DisinguishingModelError (error_string e))
                    end
                | None => throw (RemoveModelFailed io_error)
                end
            | None =>
                s <- get ;;
                a <- unwrap (answer (sys_net s)) ;;
                alayer <- index (node_array (sys_net s)) a ;;
                new_model <- on_world (run_cat_new (Z.of_nat (length alayer)) dhn 2 dhl da) ;;
                mn <- unwrap model_name ;;
                rm <- on_world (remove_file mn) ;;
                match rm with
                | Some _ =>
                    s <- get ;;
                    lr <- run_cat_learn new_model (sys_data s) dlr name ;;
                    let (res, data') := lr in
                    set_data data' ;;;
                    match res with
                    | inl (n, _, errmse) => ret (errmse, Some n, outputs)
                    | inr e => throw (DisinguishingModelError (error_string e))
                    end
                | None => throw (RemoveModelFailed io_error)
                end
            end) ;;
      let '(mse, model_name, outputs) := r in
      on_net (backpropogate answer_err learning_rate (as_i32 hidden_layers) mse) ;;;
      learn_epochs k' learning_rate dlr name dhn dhl da hidden_layers model_name outputs
  end.

(** [NeuralNetwork::learn]; [for _i in 0..max_cycles] runs
    [Z.to_nat max_cycles] epochs. *)
Definition learn (learning_rate : Q) (name : string) (max_cycles : Z)
  (dlr : Q) (dhn dhl : Z) (da : ActivationFunction) : M Sys string :=
  s <- get ;;
  hidden_layers <- usize_sub (length (node_array (sys_net s))) 2 ;;
  learn_epochs (Z.to_nat max_cycles) learning_rate dlr name dhn dhl da
    hidden_layers None [] ;;;
  s <- get ;;
  on_world (write_model write_fuel (sys_net s) name).

End Learn.

(** ** Answer analysis *)

(** [a > b] on [Option<f32>] (derived [PartialOrd]): [None] is below every
    [Some], and two [Some] compare their values. *)
Definition opt_gt (a b : option Q) : bool :=
  match a, b with
  | Some x, Some y => negb (Qle_bool x y)
  | Some _, None => true
  | None, _ => false
  end.

(** [NeuralNetwork::largest_node] *)
Definition largest_node : M NeuralNetwork nat :=
  net <- get ;;
  a <- unwrap (answer net) ;;
  len <- layer_len a ;;
  for_fold 0 len (fun node largest_node =>
    net <- get ;;
    a <- unwrap (answer net) ;;
    n <- get_node a node ;;
    l <- get_node a largest_node ;;
    ret (if opt_gt (cached_output n) (cached_output l) then node else largest_node)) 0%nat.

(** A computation on [&self] run from a computation on other state. *)
Definition with_self {St A} (net : NeuralNetwork) (m : M NeuralNetwork A) : M St A :=
  fun s => (fst (m net), s).

(** [f32 as i32] and [f32 as u8]: truncation toward zero, saturating at the
    bounds of the target type. *)
Definition f32_trunc (q : Q) : Z := Z.quot (Qnum q) (Zpos (Qden q)).
Definition f32_as_i32 (q : Q) : Z := Z.max (-2147483648) (Z.min 2147483647 (f32_trunc q)).
Definition f32_as_u8 (q : Q) : Z := Z.max 0 (Z.min 255 (f32_trunc q)).

(** [e % 10.0 == 0.0 && e != 0.0] *)
Definition epoch_print (e : Q) : bool :=
  ((Qnum e mod (10 * Zpos (Qden e)) =? 0)%Z) && negb (Qeq_bool e 0).

Section Analysis.

(** [crate::DEBUG] (lib.rs is not in the sources). *)
Variable DEBUG : bool.
(** [PartialEq] of [types::Types] (types.rs is not in the sources). *)
Variable types_eqb : Types -> Types -> bool.
(** [ascii_converter::decimals_to_string], an external crate: a string or
    the text of its error. *)
Variable decimals_to_string : list Z -> string + string.

(** [NeuralNetwork::self_analysis]. [&self], [data] and [line] are read
    only; the state is the pair [(sum, count)] behind the [&mut]s. The [println!] calls only matter
    through the [unwrap]s and indexing in their arguments. *)
Definition self_analysis (net : NeuralNetwork) (epochs : option Q)
  (data : list Input.t) (line : nat) (expected_type : Types)
  : M (Q * Q) (list Types) :=
  a <- unwrap (answer net) ;;
  alayer <- index (node_array net) a ;;
  ln <- with_self net largest_node ;;
  brightest_node <- index alayer ln ;;
  brightness <- unwrap (cached_output brightest_node) ;;
  (match epochs with
   | Some e =>
       if epoch_print e then
         unwrap (category brightest_node) ;;;
         (if DEBUG then
            k0 <- usize_sub (length alayer) 1 ;;
            ln' <- with_self net largest_node ;;
            k <- usize_sub k0 ln' ;;
            dimest_node <- index alayer k ;;
            unwrap (category dimest_node) ;;;
            unwrap (cached_output dimest_node) ;;; ret tt
          else ret tt)
       else ret tt
   | None => ret tt
   end) ;;;
  (if DEBUG then unwrap (category brightest_node) ;;; ret tt else ret tt) ;;;
  cat <- unwrap (category brightest_node) ;;
  smp <- index data line ;;
  ans <- unwrap (Input.answer smp) ;;
  (if types_eqb cat ans then fun sc => (ROk tt, (fst sc + 1, snd sc)) else ret tt) ;;;
  (fun sc => (ROk tt, (fst sc, snd sc + 1))) ;;;
  match expected_type with
  | Integer _ => mapM (fun n => o <- unwrap (cached_output n) ;; ret (Integer (f32_as_i32 o))) alayer
  | Boolean _ => mapM (fun n => o <- unwrap (cached_output n) ;; ret (Boolean (negb (Qle_bool o 0)))) alayer
  | Float _ => mapM (fun n => o <- unwrap (cached_output n) ;; ret (Float o)) alayer
  | Types_String _ =>
      mapM (fun n =>
        o <- unwrap (cached_output n) ;;
        match decimals_to_string [f32_as_u8 o] with
        | inl buff => ret (Types_String buff)
        | inr err => throw (SelfAnalysisStringConversion err)
        end) alayer
  end.

End Analysis.

(** * Concrete inputs *)

(** A stand-in for the activation functions used to evaluate examples:
    exact for [Linear] and [Step]; [Sigmoid] and [Tanh] are clipped linear
    approximations. *)
Definition activate_ex (af : ActivationFunction) (x : Q) : Q :=
  match af with
  | Linear => x
  | Step => if Qle_bool 0 x then 1 else 0
  | Sigmoid => if Qle_bool x (-2) then 0 else if Qle_bool 2 x then 1 else x / 4 + (1 # 2)
  | Tanh => if Qle_bool x (-1) then -1 else if Qle_bool 1 x then 1 else x
  end.

(** A stand-in for [compute_answer_err_sig_gen]: the loss term itself. *)
Definition answer_err_ex (_ : Node) (mse : Q) : Q := mse.

(** A stand-in for [categorize::NeuralNetwork]: a unit network whose
    training succeeds with a zero error. *)
Definition cat_new_ex (_ _ _ _ : Z) (_ : ActivationFunction) (w : World)
  : option unit * World := (Some tt, w).
Definition cat_read_model_ex (_ : string) : M World unit := ret tt.
Definition cat_learn_ex (_ : unit) (_ : list Input.t) (_ : list Types) (_ : Q)
  (nm : string) : M (list Input.t * World) (string * Q * Q) := ret (nm, 0, 0).

(** An empty file system and a deterministic random source. *)
Definition world_ex : World :=
  mkWorld ∅ ∅ ∅ (fun k => Z.of_nat k * 7919)%Z 0.

(** The spec's scenario: [data=[[0,1]->true, [1,0]->false]]. *)
Definition data_ex : list Input.t :=
  [Input.mk [0; 1] (Some (Boolean true)); Input.mk [1; 0] (Some (Boolean false))].

(** The network built by [NeuralNetwork::new(2, 2, 2, 1, af)] from
    [world_ex], and the world after it. *)
Definition new_ex (af : ActivationFunction) : NeuralNetwork * World :=
  match new 2 2 2 1 af world_ex with
  | (ROk net, w) => (net, w)
  | (_, w) => (mkNet [] None None None af, w)
  end.

(** The network of [new_ex Sigmoid], its sensor layer, and samples
    shorter and longer than that layer. *)
Definition net_ex : NeuralNetwork := fst (new_ex Sigmoid).
Definition sensor_layer_ex : list Node := default [] (node_array net_ex !! 0%nat).
Definition short_sample_ex : Input.t := Input.mk [1] None.
Definition long_sample_ex : Input.t := Input.mk [1; 2; 3] None.

(** The network of [new_ex Sigmoid] after a forward pass of the first
    sample of [data_ex], and its layers. *)
Definition fwd_ex : NeuralNetwork := snd (push_downstream activate_ex data_ex 0 net_ex).
Definition layer_of (net : NeuralNetwork) (k : nat) : list Node :=
  default [] (node_array net !! k).

(** The network built by [NeuralNetwork::new(1, 1, 1, 2, Linear)] (two
    hidden layers) from [world_ex], and after a forward pass of the sample
    [[1]]. *)
Definition net2_ex : NeuralNetwork :=
  match new 1 1 1 2 Linear world_ex with
  | (ROk n, _) => n
  | _ => mkNet [] None None None Linear
  end.
Definition fwd2_ex : NeuralNetwork :=
  snd (push_downstream activate_ex [Input.mk [1] None] 0 net2_ex).

(** The error signal and the first link weight of the first node of a
    layer, and equality of optional rationals. *)
Definition first_node (na : list (list Node)) (l : nat) : option Node :=
  match na !! l with Some (n :: _) => Some n | _ => None end.
Definition first_err (na : list (list Node)) (l : nat) : option Q :=
  match first_node na l with Some n => err_sig n | None => None end.
Definition first_weight (na : list (list Node)) (l : nat) : option Q :=
  match first_node na l with
  | Some n => match link_weights n with w :: _ => Some w | [] => None end
  | None => None
  end.
Definition q_opt_eqb (a b : option Q) : bool :=
  match a, b with
  | Some x, Some y => Qeq_bool x y
  | None, None => true
  | _, _ => false
  end.

(** Equality of networks up to [Qeq] on weights and biases: the layer
    count, the weight count of each node, the values and the activation
    function. *)
Fixpoint list_eqb {A} (eqb : A -> A -> bool) (a b : list A) : bool :=
  match a, b with
  | [], [] => true
  | x :: a', y :: b' => eqb x y && list_eqb eqb a' b'
  | _, _ => false
  end.
Definition af_eqb (a b : ActivationFunction) : bool :=
  match a, b with
  | Sigmoid, Sigmoid | Linear, Linear | Tanh, Tanh | Step, Step => true
  | _, _ => false
  end.
Definition node_eqb (n m : Node) : bool :=
  list_eqb Qeq_bool (link_weights n) (link_weights m) && q_opt_eqb (b_weight n) (b_weight m).
Definition same_net_eqb (a b : NeuralNetwork) : bool :=
  list_eqb (list_eqb node_eqb) (node_array a) (node_array b) &&
  af_eqb (activation_function a) (activation_function b).

(** The network of [NeuralNetwork::new(2, hn, 2, 1, Sigmoid)] from
    [world_ex], written by [write_model] under the name ["m"] and read back
    by [read_model]. *)
Definition round_trip_ex (hn : Z) : option (NeuralNetwork * Res NeuralNetwork) :=
  match new 2 hn 2 1 Sigmoid world_ex with
  | (ROk net, w1) =>
      match write_model 1 net "m" w1 with
      | (ROk nm, w2) => Some (net, fst (read_model nm w2))
      | _ => None
      end
  | _ => None
  end.

(** A file system holding the single file [net.darj], and model texts:
    a well-formed one and malformed ones. *)
Definition file_ex (c : string) : World := set_files world_ex {[ "net.darj" := c ]}.
Definition good_txt : string :=
  ";0" +:+ nl +:+ "lb" +:+ nl +:+ "0.5;0" +:+ nl +:+ "lb" +:+ nl +:+ "sigmoid".
Definition bad_weight_txt : string :=
  ";0" +:+ nl +:+ "lb" +:+ nl +:+ "abc;0" +:+ nl +:+ "lb" +:+ nl +:+ "sigmoid".
Definition no_semicolon_txt : string :=
  ";0" +:+ nl +:+ "lb" +:+ nl +:+ "0.5" +:+ nl +:+ "lb" +:+ nl +:+ "sigmoid".
Definition no_activation_txt : string :=
  ";0" +:+ nl +:+ "lb" +:+ nl +:+ "0.5;0" +:+ nl +:+ "lb" +:+ nl.
Definition empty_txt : string := EmptyString.

(** A stand-in for the derived [PartialEq] of [types::Types] (floats
    compared by value), and for [ascii_converter::decimals_to_string]: a
    byte below 128 is its ASCII character, other bytes are refused. *)
Definition types_eqb_ex (a b : Types) : bool :=
  match a, b with
  | Integer x, Integer y => Z.eqb x y
  | Float x, Float y => Qeq_bool x y
  | Boolean x, Boolean y => Bool.eqb x y
  | Types_String x, Types_String y => String.eqb x y
  | _, _ => false
  end.
Definition d2s_ex (ds : list Z) : string + string :=
  match ds with
  | [d] => if (d <? 128)%Z then inl (String (ascii_of_nat (Z.to_nat d)) EmptyString)
           else inr "not ascii"%string
  | _ => inr "not one byte"%string
  end.

(** A network whose answer layer (layer 1) holds three categorised nodes
    with outputs [1/4], [3/4] and [3/4]. *)
Definition analysis_layer_ex : list Node :=
  [mkNode [] [] 0 None None (Some (1 # 4)) (Some (Boolean false)) None;
   mkNode [] [] 0 None None (Some (3 # 4)) (Some (Boolean true)) None;
   mkNode [] [] 0 None None (Some (3 # 4)) (Some (Boolean false)) None].
Definition analysis_net_ex : NeuralNetwork :=
  mkNet [[]; analysis_layer_ex] (Some 0%nat) (Some 1%nat) None Sigmoid.

(** * Predicates on computations and states *)

(** Computations that can only succeed or panic. *)
Definition panics_only {St A} (m : M St A) : Prop :=
  forall s, match fst (m s) with RErr _ | RDiverge => False | _ => True end.

(** Computations that always succeed. *)
Definition always_ok {St A} (m : M St A) : Prop :=
  forall s, exists a s', m s = (ROk a, s').

(** Computations that leave the state as it is. *)
Definition readonly {St A} (m : M St A) : Prop := forall s, snd (m s) = s.

(** Triples with an invariant [Inv] that holds in every outcome, panics
    included, and a postcondition [Q] on success. *)
Definition ht {St A} (Inv P : St -> Prop) (m : M St A) (Q : A -> St -> Prop) : Prop :=
  forall s, Inv s -> P s ->
  match m s with
  | (ROk a, s') => Inv s' /\ Q a s'
  | (_, s') => Inv s'
  end.

(** The trained values of a node: its link weights and its bias. *)
Definition wts (n : Node) : list Q * option Q := (link_weights n, b_weight n).
Definition weights_of (na : list (list Node)) : list (list (list Q * option Q)) :=
  (fun layer : list Node => wts <$> layer) <$> na.
Definition keeps_w (W0 : list (list (list Q * option Q))) (net : NeuralNetwork) : Prop :=
  weights_of (node_array net) = W0.

(** [self.node_array[l][i]], if in range. *)
Definition node_at (net : NeuralNetwork) (l i : nat) : option Node :=
  node_array net !! l ≫= (.!! i).

(** A computation that leaves the state alone and whose result does not
    depend on it. *)
Definition const_m {St A} (m : M St A) : Prop := forall s s', m s = (fst (m s'), s).

(** The world after one draw from the random source. *)
Definition advance (w : World) : World := snd (draw w).

(** [layer_done g l j cur]: nodes [0..j) of [cur] are those of [imap g l],
    the others those of [l]. *)
Definition layer_done (g : nat -> Node -> Node) (l : list Node) (j : nat) (cur : list Node) : Prop :=
  length cur = length l /\
  (forall k, (k < j)%nat -> cur !! k = imap g l !! k) /\
  (forall k, (j <= k)%nat -> cur !! k = l !! k).

(** The cached output of node [j] of a layer, [None] out of range. *)
Definition co (layer : list Node) (j : nat) : option Q :=
  default None (cached_output <$> layer !! j).

(** Computations that either succeed leaving the state as it is, or panic. *)
Definition ro_po {St A} (m : M St A) : Prop :=
  forall s, (exists a, m s = (ROk a, s)) \/ (exists s', m s = (RPanic, s')).

(** A node as [read_model] builds it: no inputs, error signal, label or
    output cached yet, one slot per link weight, and a bias. *)
Definition fresh_node (n : Node) : Prop :=
  link_vals n = replicate (length (link_weights n)) None /\ links n = length (link_weights n) /\
  is_Some (b_weight n) /\ err_sig n = None /\ correct_answer n = None /\
  cached_output n = None /\ category n = None.

(** A line of a model file that [read_model] counts as a layer break: not
    an activation name, and [lb] once trimmed. *)
Definition lb_line (i : string) : bool :=
  negb (String.eqb i "sigmoid" || String.eqb i "linear" || String.eqb i "tanh" || String.eqb i "step")
  && String.eqb (trim i) "lb".

(** * Proofs *)

(** ** Computations that can only succeed or panic *)


Create HintDb po.

Lemma po_ret {St A} (a : A) : @panics_only St A (ret a).
Proof. intro s; exact I. Qed.
Lemma po_get {St} : @panics_only St St get.
Proof. intro s; exact I. Qed.
Lemma po_put {St} (s0 : St) : panics_only (put s0).
Proof. intro s; exact I. Qed.
Lemma po_panic {St A} : @panics_only St A panic.
Proof. intro s; exact I. Qed.
Lemma po_unwrap {St A} (o : option A) : @panics_only St A (unwrap o).
Proof. intro s; destruct o; exact I. Qed.
Lemma po_index {St A} (l : list A) i : @panics_only St A (index l i).
Proof. apply po_unwrap. Qed.
Lemma po_draw : panics_only draw.
Proof. intro s; exact I. Qed.
Lemma po_set_data d : panics_only (set_data d).
Proof. intro s; exact I. Qed.
Lemma po_bind {St A B} (m : M St A) (k : A -> M St B) :
  panics_only m -> (forall a, panics_only (k a)) -> panics_only (bind m k).
Proof.
  intros Hm Hk s. unfold bind. specialize (Hm s).
  destruct (m s) as [[a|e| |] s']; simpl in *; auto. apply Hk.
Qed.
Lemma po_zoom {St T A} g st (m : M T A) :
  panics_only m -> @panics_only St A (zoom g st m).
Proof.
  intros Hm s. unfold zoom. specialize (Hm (g s)). destruct (m (g s)); exact Hm.
Qed.
Lemma po_vec_set {St A} (l : list A) i x : @panics_only St _ (vec_set l i x).
Proof. apply po_bind; [apply po_index | intros; apply po_ret]. Qed.

#[export] Hint Resolve po_ret po_get po_put po_panic po_unwrap po_index po_draw
  po_set_data po_vec_set po_zoom : po.

Lemma po_for_range {St} (body : nat -> M St unit) :
  (forall i, panics_only (body i)) -> forall lo n, panics_only (for_range lo n body).
Proof.
  intros Hb lo n. revert lo. induction n; intro lo; simpl; auto with po.
  apply po_bind; auto.
Qed.
Lemma po_for_collect {St A} (body : nat -> M St A) :
  (forall i, panics_only (body i)) -> forall lo n, panics_only (for_collect lo n body).
Proof.
  intros Hb lo n. revert lo. induction n; intro lo; simpl; auto with po.
  apply po_bind; auto. intro. apply po_bind; auto with po.
Qed.
Lemma po_for_fold {St A} (body : nat -> A -> M St A) :
  (forall i a, panics_only (body i a)) ->
  forall lo n acc, panics_only (for_fold lo n body acc).
Proof.
  intros Hb lo n. revert lo. induction n; intros lo acc; simpl; auto with po.
  apply po_bind; auto.
Qed.
Lemma po_shuffle_down {A} k (l : list A) : panics_only (shuffle_down k l).
Proof.
  revert l. induction k; intro l; simpl; auto with po.
  apply po_bind; auto with po.
Qed.

#[export] Hint Resolve po_for_range po_for_collect po_for_fold po_shuffle_down : po.

Ltac po_step :=
  match goal with
  | |- panics_only (bind _ _) => apply po_bind; [ | intro ]
  | |- panics_only (let (_, _) := ?p in _) => destruct p
  | |- forall _, _ => intro
  | |- panics_only (for_range _ _ _) => apply po_for_range
  | |- panics_only (for_collect _ _ _) => apply po_for_collect
  | |- panics_only (for_fold _ _ _ _) => apply po_for_fold
  | |- panics_only (zoom _ _ _) => apply po_zoom
  | |- _ => solve [ eauto with po ]
  end.
Ltac po_solve := repeat po_step.

Lemma po_get_node l i : panics_only (get_node l i).
Proof. unfold get_node; po_solve. Qed.
Lemma po_put_node l i n : panics_only (put_node l i n).
Proof. unfold put_node; po_solve. Qed.
Lemma po_layer_len l : panics_only (layer_len l).
Proof. unfold layer_len; po_solve. Qed.
#[export] Hint Resolve po_get_node po_put_node po_layer_len : po.

Lemma po_node_output_at act l i : panics_only (node_output_at act l i).
Proof. unfold node_output_at; po_solve. Qed.
#[export] Hint Resolve po_node_output_at : po.

Lemma po_push_downstream act data line : panics_only (push_downstream act data line).
Proof. unfold push_downstream; po_solve. Qed.
Lemma po_answer_outputs act : panics_only (answer_outputs act).
Proof. unfold answer_outputs; po_solve. Qed.
Lemma po_shuffle_data : panics_only shuffle_data.
Proof. unfold shuffle_data, shuffle; po_solve. Qed.
#[export] Hint Resolve po_push_downstream po_answer_outputs po_shuffle_data : po.

Lemma po_epoch_samples act outputs : panics_only (epoch_samples act outputs).
Proof. unfold epoch_samples, on_net; po_solve. Qed.
Lemma po_run_cat_new {C} cat_new i h o l af : panics_only (run_cat_new C cat_new i h o l af).
Proof. intro w. unfold run_cat_new. destruct (cat_new i h o l af w) as [[c|] w']; exact I. Qed.
#[export] Hint Resolve po_epoch_samples po_run_cat_new : po.

Lemma bind_panic_l {St A B} (m : M St A) (k : A -> M St B) s :
  fst (m s) = RPanic -> fst (bind m k s) = RPanic.
Proof. unfold bind. destruct (m s) as [r s']; simpl; intros ->; reflexivity. Qed.

Lemma bind_po_panic {St A B} (m : M St A) (k : A -> M St B) :
  panics_only m -> (forall a s, fst (k a s) = RPanic) ->
  forall s, fst (bind m k s) = RPanic.
Proof.
  intros Hm Hk s. specialize (Hm s). unfold bind.
  destruct (m s) as [[a|e| |] s']; simpl in *; try contradiction; auto.
Qed.

(** ** Training: the first epoch *)

(** An epoch entered without a distinguishing model name panics. *)
Lemma learn_epoch_none_panics act aerr C cnew cread clearn k lr dlr name dhn dhl
  da hl outputs s :
  fst (learn_epochs act aerr C cnew cread clearn (S k) lr dlr name dhn dhl da hl
         None outputs s) = RPanic.
Proof.
  cbn [learn_epochs].
  revert s. apply bind_po_panic; [auto with po |]. intros _ s.
  revert s. apply bind_po_panic; [auto with po |]. intros outs s.
  apply bind_panic_l.
  revert s. apply bind_po_panic; [auto with po |]. intros s0 s.
  revert s. apply bind_po_panic; [auto with po |]. intros a s.
  revert s. apply bind_po_panic; [auto with po |]. intros alayer s.
  revert s. apply bind_po_panic; [unfold on_world; auto with po |]. intros nm s.
  reflexivity.
Qed.

(** C1 (code_bug). [learn] with [max_cycles >= 1] always panics in its first
    epoch: the branch taken when no distinguishing model exists yet calls
    [std::fs::remove_file(model_name.unwrap())] on [model_name = None]
    (line 204), whatever the network, the samples and the distinguishing
    model's implementation. *)
Theorem learn_first_epoch_panics act aerr C cnew cread clearn fuel lr name
  max_cycles dlr dhn dhl da s :
  (1 <= max_cycles)%Z ->
  fst (learn act aerr C cnew cread clearn fuel lr name max_cycles dlr dhn dhl da s)
  = RPanic.
Proof.
  intros Hm. unfold learn.
  revert s. apply bind_po_panic; [auto with po |]. intros s0 s.
  revert s. apply bind_po_panic.
  { unfold usize_sub. destruct (_ <=? _)%nat; auto with po. }
  intros hl s. apply bind_panic_l.
  destruct (Z.to_nat max_cycles) eqn:E; [lia |].
  apply learn_epoch_none_panics.
Qed.

Lemma learn_first_epoch_panics_witness :
  (1 <= 10)%Z /\
  fst (learn activate_ex answer_err_ex unit cat_new_ex cat_read_model_ex cat_learn_ex
         3 (1 # 2) "gen" 10 (1 # 2) 2 1 Sigmoid
         (mkSys (fst (new_ex Sigmoid)) data_ex (snd (new_ex Sigmoid)))) = RPanic.
Proof. split; [lia | apply learn_first_epoch_panics; lia]. Defined.

(** ** Training without epochs *)

(** C10 (amended). For a network with at least two layers (every network
    built by [new]), [learn] with [max_cycles <= 0] runs no epoch: the
    network and the samples are left as they are, and the result and the
    only change of the environment are those of [write_model] on the
    network. *)
Theorem learn_no_cycles_only_writes act aerr C cnew cread clearn fuel lr name
  max_cycles dlr dhn dhl da net data w :
  (max_cycles <= 0)%Z -> (2 <= length (node_array net))%nat ->
  learn act aerr C cnew cread clearn fuel lr name max_cycles dlr dhn dhl da
    (mkSys net data w)
  = (fst (write_model fuel net name w),
     mkSys net data (snd (write_model fuel net name w))).
Proof.
  intros Hm Hl. unfold learn.
  replace (Z.to_nat max_cycles) with 0%nat by lia.
  unfold bind at 1, get at 1. unfold bind at 1, usize_sub.
  cbn [sys_net]. rewrite (proj2 (Nat.leb_le _ _) Hl). cbn [learn_epochs].
  unfold bind, ret, get, on_world, zoom; cbn [sys_net sys_world sys_data fst snd].
  destruct (write_model fuel net name w); reflexivity.
Qed.

Lemma learn_no_cycles_only_writes_witness :
  (0 <= 0)%Z /\ (2 <= length (node_array (fst (new_ex Sigmoid))))%nat /\
  learn activate_ex answer_err_ex unit cat_new_ex cat_read_model_ex cat_learn_ex
    3 (1 # 2) "gen" 0 (1 # 2) 2 1 Sigmoid
    (mkSys (fst (new_ex Sigmoid)) data_ex (snd (new_ex Sigmoid)))
  = (fst (write_model 3 (fst (new_ex Sigmoid)) "gen" (snd (new_ex Sigmoid))),
     mkSys (fst (new_ex Sigmoid)) data_ex
       (snd (write_model 3 (fst (new_ex Sigmoid)) "gen" (snd (new_ex Sigmoid))))).
Proof.
  split; [lia | split; [vm_compute; lia |]].
  apply learn_no_cycles_only_writes; [lia | vm_compute; lia].
Defined.

(** C10 (counterexample). A network with a single layer, and
    [max_cycles = 0]: [learn] panics on [self.node_array.len() - 2] before
    its loop, and persists nothing. *)
Lemma learn_no_cycles_one_layer_panics :
  fst (learn activate_ex answer_err_ex unit cat_new_ex cat_read_model_ex cat_learn_ex
         3 (1 # 2) "gen" 0 (1 # 2) 2 1 Sigmoid
         (mkSys (mkNet [[]] (Some 0%nat) (Some 0%nat) None Sigmoid) data_ex world_ex))
  = RPanic.
Proof. vm_compute. reflexivity. Qed.
(** ** Computations that always succeed *)


Lemma bind_ok {St A B} (m : M St A) (k : A -> M St B) s a s' :
  m s = (ROk a, s') -> bind m k s = k a s'.
Proof. unfold bind. intros ->. reflexivity. Qed.

Lemma ok_bind {St A B} (m : M St A) (k : A -> M St B) :
  always_ok m -> (forall a, always_ok (k a)) -> always_ok (bind m k).
Proof.
  intros Hm Hk s. destruct (Hm s) as (a & s' & E). rewrite (bind_ok _ _ _ _ _ E). apply Hk.
Qed.
Lemma ok_ret {St A} (a : A) : @always_ok St A (ret a).
Proof. intro s. eauto. Qed.
Lemma ok_draw : always_ok draw.
Proof. intro s. eexists _, _. reflexivity. Qed.
Lemma ok_for_collect {St A} (body : nat -> M St A) :
  (forall i, always_ok (body i)) -> forall lo n, always_ok (for_collect lo n body).
Proof.
  intros Hb lo n. revert lo. induction n; intro lo; simpl; [apply ok_ret|].
  apply ok_bind; auto. intro. apply ok_bind; auto. intro. apply ok_ret.
Qed.
Lemma ok_mapM {St A B} (f : A -> M St B) :
  (forall x, always_ok (f x)) -> forall l, always_ok (mapM f l).
Proof.
  intros Hf l. induction l; simpl; [apply ok_ret|].
  apply ok_bind; auto. intro. apply ok_bind; auto. intro. apply ok_ret.
Qed.
Lemma ok_init_node n : always_ok (init_node n).
Proof.
  unfold init_node, gen_weight. apply ok_bind; [apply ok_bind; [apply ok_draw | intro; apply ok_ret] | intro].
  apply ok_bind; [apply ok_for_collect; intro; apply ok_bind; [apply ok_draw | intro; apply ok_ret] | intro; apply ok_ret].
Qed.

Lemma length_build_hidden c hn na : length (build_hidden c hn na) = (length na + c)%nat.
Proof. revert na. induction c; intro na; simpl; [lia|]. rewrite IHc, length_app. simpl. lia. Qed.

Lemma foldr_params_shift (l : list Node) b :
  foldr (fun n acc => Z.of_nat (links n) + 1 + acc)%Z b l
  = (foldr (fun n acc => Z.of_nat (links n) + 1 + acc)%Z 0%Z l + b)%Z.
Proof. induction l; simpl; [lia|]. rewrite IHl. lia. Qed.

Lemma fold_layer_params (l : list Node) a :
  fold_left (fun acc n => acc + 1 + Z.of_nat (links n))%Z l a
  = (a + foldr (fun n acc => Z.of_nat (links n) + 1 + acc)%Z 0%Z l)%Z.
Proof. revert a. induction l; intro a0; simpl; [lia|]. rewrite IHl. lia. Qed.

Lemma count_params_spec_gen na acc :
  fold_left (fun acc layer => fold_left (fun acc n => acc + 1 + Z.of_nat (links n))%Z layer acc) na acc
  = (acc + params_spec na)%Z.
Proof.
  unfold params_spec. revert acc. induction na as [|layer na IH]; intro acc; simpl; [lia|].
  rewrite IH, foldr_app, fold_layer_params, (foldr_params_shift layer (foldr _ _ (concat na))). lia.
Qed.

(** ** Construction *)

(** C7, the part that holds: for non-negative topology parameters with
    [hidden_layers < i32::MAX], [new] returns a network whose [parameters]
    is the sum over all nodes of [links + 1]. *)
Lemma new_params_sum pi hn po hl af w :
  (0 <= pi)%Z -> (0 <= hn)%Z -> (0 <= po)%Z -> (0 <= hl < 2147483647)%Z ->
  exists net w', new pi hn po hl af w = (ROk net, w') /\
                 parameters net = Some (params_spec (node_array net)).
Proof.
  intros Hpi Hhn Hpo Hhl. unfold new.
  assert (Hp : (2 ^ 64 = 18446744073709551616)%Z) by reflexivity.
  assert (Ha : as_usize hl = hl) by (unfold as_usize; apply Z.mod_small; lia).
  rewrite Ha.
  rewrite (bind_ok _ _ _ (hl + 1)%Z w).
  2:{ unfold usize_add. replace (hl + 1 <? 2^64)%Z with true by (symmetry; apply Z.ltb_lt; lia). reflexivity. }
  rewrite (bind_ok _ _ _ (hl + 1)%Z w).
  2:{ unfold i32_add. replace ((-2147483648 <=? hl + 1) && (hl + 1 <=? 2147483647))%Z with true by (symmetry; apply andb_true_iff; split; apply Z.leb_le; lia). reflexivity. }
  replace (hl + 1 - 1)%Z with hl by lia.
  set (na := build_hidden _ _ _ ++ [[]]).
  assert (Hlen : length na = (Z.to_nat hl + 2)%nat).
  { subst na. rewrite length_app, length_build_hidden. simpl. lia. }
  destruct (lookup_lt_is_Some_2 na (Z.to_nat hl)) as [prev Hprev]; [lia|].
  rewrite (bind_ok _ _ _ prev w) by (unfold index; rewrite Hprev; reflexivity).
  assert (Hok : exists na0, (if decide (Z.to_nat po = 0%nat) then ret na
      else alayer <- index na (Z.to_nat (hl + 1)) ;;
           ret (<[Z.to_nat (hl + 1) := alayer ++ replicate (Z.to_nat po)
                   (node_unlinked (length prev) (Some 0))]> na)) w = (ROk na0, w)).
  { destruct (decide _).
    - eexists; reflexivity.
    - destruct (lookup_lt_is_Some_2 na (Z.to_nat (hl + 1))) as [al Hal]; [lia |].
      eexists. unfold bind, index, unwrap. rewrite Hal. reflexivity. }
  destruct Hok as [na0 Hna0]. rewrite (bind_ok _ _ _ _ _ Hna0).
  destruct (ok_mapM _ (ok_mapM _ ok_init_node) na0 w) as (na1 & w1 & E).
  rewrite (bind_ok _ _ _ _ _ E). eexists _, _. split; [reflexivity |].
  simpl. f_equal. unfold count_params. rewrite count_params_spec_gen. lia.
Qed.

(** C7 (code_bug). [new] with [hidden_layers = i32::MAX] (non-negative
    parameters) panics: [1..hidden_layers + 1] overflows [i32] (line 59). In
    a release build the sum wraps, no hidden layer is built, and
    [net.node_array[hidden_layers as usize]] (line 70) is out of bounds, a
    panic too. *)
Theorem new_i32_max_hidden_layers_panics af w :
  fst (new 2 2 2 2147483647 af w) = RPanic.
Proof. vm_compute. reflexivity. Qed.

(** ** Loops and node access *)

Lemma for_range_panic_at {St} (body : nat -> M St unit) (P : St -> Prop) k :
  (forall i s, (i < k)%nat -> P s -> exists s', body i s = (ROk tt, s') /\ P s') ->
  (forall s, P s -> fst (body k s) = RPanic) ->
  forall n lo s, (lo <= k < lo + n)%nat -> P s -> fst (for_range lo n body s) = RPanic.
Proof.
  intros Hok Hp n. induction n as [|n IH]; intros lo s Hk Hs; [lia|].
  cbn [for_range].
  destruct (decide (lo = k)) as [->|Hne].
  - apply bind_panic_l. auto.
  - destruct (Hok lo s) as (s' & E & Hs'); [lia | auto |].
    rewrite (bind_ok _ _ _ _ _ E). apply IH; [lia | auto].
Qed.

Lemma for_range_ext {St} (b1 b2 : nat -> M St unit) n :
  forall lo, (forall i s, (lo <= i < lo + n)%nat -> b1 i s = b2 i s) ->
  forall s, for_range lo n b1 s = for_range lo n b2 s.
Proof.
  induction n as [|n IH]; intros lo Hb s; [reflexivity|].
  cbn [for_range]. unfold bind. rewrite Hb by lia.
  destruct (b2 lo s) as [[[]|e| |] s']; auto.
  apply IH. intros; apply Hb; lia.
Qed.

Lemma bind_ext {St A B} (m1 m2 : M St A) (k1 k2 : A -> M St B) s :
  (forall s, m1 s = m2 s) -> (forall a s, k1 a s = k2 a s) ->
  bind m1 k1 s = bind m2 k2 s.
Proof. intros Hm Hk. unfold bind. rewrite Hm. destruct (m2 s) as [[]]; auto. Qed.

Lemma put_node_ok l i n net layer :
  node_array net !! l = Some layer -> (i < length layer)%nat ->
  put_node l i n net =
  (ROk tt, set_node_array net (<[l := <[i := n]> layer]> (node_array net))).
Proof.
  intros Hl Hi. destruct (lookup_lt_is_Some_2 layer i Hi) as [x Hx].
  cbv [put_node bind get index unwrap vec_set ret put]. rewrite Hl, Hx. reflexivity.
Qed.

Lemma get_node_ok l i net layer n :
  node_array net !! l = Some layer -> layer !! i = Some n ->
  get_node l i net = (ROk n, net).
Proof. intros Hl Hi. cbv [get_node bind get index unwrap ret]. rewrite Hl, Hi. reflexivity. Qed.

(** ** The forward pass *)

(** C5 (amended). [push_downstream] has no error result. For a network
    whose sensor layer is layer 0 and a sample of the samples: if the
    sample is shorter than the sensor layer, the forward pass panics (an
    out-of-bounds index); otherwise it runs exactly as on the sample
    truncated to the sensor layer's width. *)
Theorem push_downstream_sample_length act net data line smp sl :
  sensor net = Some 0%nat -> node_array net !! 0%nat = Some sl -> data !! line = Some smp ->
  ((length (Input.inputs smp) < length sl)%nat ->
     fst (push_downstream act data line net) = RPanic) /\
  ((length sl <= length (Input.inputs smp))%nat ->
     push_downstream act data line net
     = push_downstream act
         (<[line := Input.mk (take (length sl) (Input.inputs smp)) (Input.answer smp)]> data)
         line net).
Proof.
  intros Hs Hl Hd. split.
  - intros Hlt. unfold push_downstream.
    unfold bind at 1, get at 1. rewrite Hs. cbn [unwrap ret].
    unfold bind at 1, ret at 1.
    unfold bind at 1, layer_len at 1. unfold bind at 1, get at 1.
    unfold index at 1, unwrap at 1. rewrite Hl. cbn.
    apply bind_panic_l.
    apply (for_range_panic_at _
      (fun st => sensor st = Some 0%nat /\ exists l0, node_array st !! 0%nat = Some l0 /\ length l0 = length sl)
      (length (Input.inputs smp))); [| | lia | eauto].
    + intros i st Hi (Hs' & l0 & Hl0 & Hlen).
      destruct (lookup_lt_is_Some_2 (Input.inputs smp) i Hi) as [x Hx].
      destruct (lookup_lt_is_Some_2 l0 i) as [n Hn]; [lia|].
      eexists. unfold bind at 1, index at 1, unwrap at 1. rewrite Hd. cbn [ret].
      unfold bind at 1, index at 1, unwrap at 1. rewrite Hx. cbn [ret].
      unfold bind at 1, get at 1. unfold bind at 1. rewrite Hs'. cbn [unwrap ret].
      rewrite (bind_ok _ _ _ _ _ (get_node_ok _ _ _ _ _ Hl0 Hn)).
      rewrite (put_node_ok _ _ _ _ _ Hl0) by lia. split; [reflexivity|].
      cbn. split; [exact Hs'|]. eexists. rewrite list_lookup_insert_eq by (eapply lookup_lt_Some; eauto).
      split; [reflexivity|]. rewrite length_insert. exact Hlen.
    + intros st _. unfold bind at 1, index at 1, unwrap at 1. rewrite Hd. cbn [ret].
      unfold bind at 1, index at 1, unwrap at 1.
      rewrite (proj2 (lookup_ge_None _ _)) by lia. reflexivity.
  - intros Hle. unfold push_downstream.
    cbv [bind get]. rewrite Hs. cbv [unwrap ret layer_len index get bind]. rewrite Hl.
    erewrite for_range_ext; [reflexivity|].
    intros i st Hi. cbv beta. rewrite Hd.
    rewrite list_lookup_insert_eq by (eapply lookup_lt_Some; eauto).
    cbn [Input.inputs]. rewrite lookup_take_lt by lia. reflexivity.
Qed.

Lemma push_downstream_sample_length_witness :
  sensor net_ex = Some 0%nat /\ node_array net_ex !! 0%nat = Some sensor_layer_ex /\
  [long_sample_ex] !! 0%nat = Some long_sample_ex /\
  push_downstream activate_ex [long_sample_ex] 0 net_ex
  = push_downstream activate_ex
      (<[0%nat := Input.mk (take (length sensor_layer_ex) (Input.inputs long_sample_ex))
                    (Input.answer long_sample_ex)]> [long_sample_ex]) 0 net_ex.
Proof.
  assert (H1 : sensor net_ex = Some 0%nat) by (vm_compute; reflexivity).
  assert (H2 : node_array net_ex !! 0%nat = Some sensor_layer_ex) by (vm_compute; reflexivity).
  assert (H3 : [long_sample_ex] !! 0%nat = Some long_sample_ex) by reflexivity.
  split; [exact H1 | split; [exact H2 | split; [exact H3 |]]].
  apply (proj2 (push_downstream_sample_length activate_ex net_ex [long_sample_ex] 0
                  long_sample_ex sensor_layer_ex H1 H2 H3)).
  vm_compute. lia.
Defined.

(** C5 (counterexample). On the network of [new 2 2 2 1 Sigmoid], a
    one-feature sample makes the forward pass panic (no error is reported),
    and a three-feature sample is accepted. *)
Lemma push_downstream_short_sample_panics :
  fst (push_downstream activate_ex [short_sample_ex] 0 net_ex) = RPanic /\
  fst (push_downstream activate_ex [long_sample_ex] 0 net_ex) = ROk tt.
Proof. vm_compute. split; reflexivity. Qed.

(** ** Triples *)

Lemma ht_bind {St A B} Inv P (m : M St A) (k : A -> M St B) R Q :
  ht Inv P m R -> (forall a, ht Inv (R a) (k a) Q) -> ht Inv P (bind m k) Q.
Proof.
  intros Hm Hk s HI HP. unfold bind. specialize (Hm s HI HP).
  destruct (m s) as [[a|e| |] s']; auto. destruct Hm. apply Hk; auto.
Qed.

Lemma ht_ret {St A} Inv (P : St -> Prop) (a : A) : ht Inv P (ret a) (fun x s => x = a /\ P s).
Proof. intros s HI HP. cbn. auto. Qed.

Lemma ht_conseq {St A} Inv (P P' : St -> Prop) (m : M St A) Q Q' :
  ht Inv P' m Q' -> (forall s, P s -> P' s) -> (forall a s, Q' a s -> Q a s) -> ht Inv P m Q.
Proof.
  intros H HP HQ s HI Hs. specialize (H s HI (HP s Hs)).
  destruct (m s) as [[a|e| |] s']; intuition.
Qed.

Lemma ht_readonly {St A} Inv P (m : M St A) : readonly m -> ht Inv P m (fun _ s => P s).
Proof.
  intros Hr s HI HP. specialize (Hr s). destruct (m s) as [[]]; cbn in Hr; subst; auto.
Qed.

Lemma ht_for_range {St} Inv (body : nat -> M St unit) :
  (forall i, ht Inv (fun _ => True) (body i) (fun _ _ => True)) ->
  forall lo n (P : St -> Prop), ht Inv P (for_range lo n body) (fun _ _ => True).
Proof.
  intros Hb lo n. revert lo. induction n as [|n IH]; intros lo P s HI HP; cbn; [auto|].
  eapply (ht_bind Inv (fun _ => True)); [apply Hb | intro; apply IH | exact HI | exact Logic.I].
Qed.

Lemma ht_for_collect {St A} Inv (body : nat -> M St A) (Qa : A -> Prop) :
  (forall i, ht Inv (fun _ => True) (body i) (fun a _ => Qa a)) ->
  forall lo n (P : St -> Prop),
  ht Inv P (for_collect lo n body) (fun xs _ => length xs = n /\ Forall Qa xs).
Proof.
  intros Hb lo n. revert lo. induction n as [|n IH]; intros lo P s HI HP; cbn; [auto|].
  eapply (ht_bind Inv (fun _ => True)); [apply Hb | | exact HI | exact Logic.I].
  intros x s1 HI1 Hx. unfold bind.
  specialize (IH (S lo) (fun _ => True) s1 HI1 Logic.I).
  destruct (for_collect (S lo) n body s1) as [[xs|e| |] s2]; auto.
  destruct IH as (HI2 & Hl & Hf). cbn. auto.
Qed.

Lemma ro_ret {St A} (a : A) : @readonly St A (ret a).
Proof. intro; reflexivity. Qed.
Lemma ro_get {St} : @readonly St St get.
Proof. intro; reflexivity. Qed.
Lemma ro_unwrap {St A} (o : option A) : @readonly St A (unwrap o).
Proof. intro; destruct o; reflexivity. Qed.
Lemma ro_index {St A} (l : list A) i : @readonly St A (index l i).
Proof. apply ro_unwrap. Qed.
Lemma ro_bind {St A B} (m : M St A) (k : A -> M St B) :
  readonly m -> (forall a, readonly (k a)) -> readonly (bind m k).
Proof.
  intros Hm Hk s. unfold bind. specialize (Hm s).
  destruct (m s) as [r s']. cbn in Hm. subst s'. destruct r; cbn; auto. apply Hk.
Qed.
Lemma ro_vec_set {St A} (l : list A) i x : @readonly St _ (vec_set l i x).
Proof. apply ro_bind; [apply ro_index | intro; apply ro_ret]. Qed.
Lemma ro_layer_len l : readonly (layer_len l).
Proof. apply ro_bind; [apply ro_get | intro; apply ro_bind; [apply ro_index | intro; apply ro_ret]]. Qed.

Lemma ht_get_node Inv P l i :
  ht Inv P (get_node l i) (fun n s => P s /\ node_at s l i = Some n).
Proof.
  intros s HI HP. cbv [get_node bind get index unwrap ret node_at].
  destruct (node_array s !! l) as [layer|] eqn:El; cbn; auto.
  destruct (layer !! i) eqn:E; cbn; auto. rewrite El. cbn. auto.
Qed.

Section Weights.
Variable W0 : list (list (list Q * option Q)).

Lemma ht_put_node l i n :
  ht (keeps_w W0) (fun s => exists n0, node_at s l i = Some n0 /\ wts n0 = wts n)
    (put_node l i n) (fun _ _ => True).
Proof.
  intros s HI (n0 & Hn0 & Hw). unfold node_at in Hn0.
  destruct (node_array s !! l) as [layer|] eqn:El; [|discriminate]. cbn in Hn0.
  cbv [put_node bind get index unwrap vec_set ret put]. rewrite El, Hn0.
  split; [|exact Logic.I]. unfold keeps_w, weights_of in *. rewrite <- HI. cbn.
  rewrite list_fmap_insert, list_fmap_insert.
  rewrite list_insert_id; [reflexivity|].
  rewrite list_lookup_fmap, El. cbn. f_equal.
  symmetry. apply list_insert_id. rewrite list_lookup_fmap, Hn0. cbn. congruence.
Qed.
End Weights.

Ltac ro_solve :=
  repeat first [ apply ro_ret | apply ro_get | apply ro_unwrap | apply ro_index
               | apply ro_vec_set | apply ro_layer_len | apply ro_bind | intro ].

Ltac put_pre :=
  let s := fresh "s" in let Hs := fresh "Hs" in
  intros s Hs; eexists; split; [intuition eauto | reflexivity].

Ltac ht_w_step0 :=
  match goal with
  | |- ht _ _ (bind (get_node _ _) _) _ => eapply ht_bind; [apply ht_get_node | intro]
  | |- ht _ _ (bind (put_node _ _ _) _) _ =>
      eapply ht_bind; [eapply ht_conseq; [apply ht_put_node | put_pre | intros; exact Logic.I] | intro]
  | |- ht _ _ (put_node _ _ _) _ =>
      eapply ht_conseq; [apply ht_put_node | put_pre | intros; exact Logic.I]
  | |- ht _ _ (bind (for_range _ _ _) _) _ => eapply ht_bind; [apply ht_for_range; intro | intro]
  | |- ht _ ?P (for_range _ _ _) _ =>
      eapply (ht_conseq _ P P); [apply ht_for_range; intro | intros ? Hp; exact Hp | intros; auto]
  | |- ht _ _ (let (_, _) := _ in _) _ => cbv [output]; cbv beta iota zeta
  | |- ht _ _ (bind _ _) _ => eapply ht_bind; [apply ht_readonly; ro_solve | intro]
  | |- ht _ _ (ret _) _ => eapply ht_conseq; [apply ht_ret | intros ? Hp; exact Hp | intros; auto]
  end.

Section Weights2.
Variable W0 : list (list (list Q * option Q)).
Lemma ht_node_output_at act l i (P : NeuralNetwork -> Prop) :
  ht (keeps_w W0) P (node_output_at act l i) (fun _ _ => True).
Proof. unfold node_output_at. repeat ht_w_step0. Qed.
End Weights2.

Ltac ht_w_step :=
  first [ match goal with
          | |- ht _ _ (bind (node_output_at _ _ _) _) _ =>
              eapply ht_bind; [apply ht_node_output_at | intro]
          end
        | ht_w_step0 ].

Lemma ht_push_downstream W0 act data line (P : NeuralNetwork -> Prop) :
  ht (keeps_w W0) P (push_downstream act data line) (fun _ _ => True).
Proof. unfold push_downstream. repeat ht_w_step. Qed.

Lemma ht_answer_outputs W0 act (P : NeuralNetwork -> Prop) :
  ht (keeps_w W0) P (answer_outputs act) (fun _ _ => True).
Proof.
  unfold answer_outputs. repeat ht_w_step.
  eapply ht_conseq; [apply (ht_for_collect _ _ (fun _ => True)) | intros; exact Logic.I | intros; exact Logic.I].
  intro. repeat ht_w_step. eapply ht_conseq; [apply ht_node_output_at | intros; exact Logic.I | intros; exact Logic.I].
Qed.

Lemma ht_on_net {A} Inv (m : M NeuralNetwork A) (Q : A -> Prop) :
  ht Inv (fun _ => True) m (fun a _ => Q a) ->
  ht (fun s => Inv (sys_net s)) (fun _ => True) (on_net m) (fun a _ => Q a).
Proof.
  intros H s HI _. unfold on_net, zoom. specialize (H (sys_net s) HI Logic.I).
  destruct (m (sys_net s)) as [[a|e| |] n']; cbn; auto.
Qed.

Lemma length_swap {A} i j (l : list A) : length (swap i j l) = length l.
Proof. unfold swap. destruct (l !! i), (l !! j); rewrite ?length_insert; reflexivity. Qed.

Lemma shuffle_down_ok {A} k (l : list A) w :
  exists l' w', shuffle_down k l w = (ROk l', w') /\ length l' = length l.
Proof.
  revert l w. induction k as [|k IH]; intros l w; cbn; [eauto|].
  destruct (IH (swap (S k) (Z.to_nat (w_rng w (w_pos w) mod Z.of_nat (S (S k)))%Z) l)
              (mkWorld (w_files w) (w_nostat w) (w_nowrite w) (w_rng w) (S (w_pos w))))
    as (l' & w' & E & Hl).
  rewrite E. exists l', w'. split; [reflexivity|]. rewrite Hl. apply length_swap.
Qed.

Lemma shuffle_data_ok s :
  exists s', shuffle_data s = (ROk tt, s') /\ sys_net s' = sys_net s /\
             length (sys_data s') = length (sys_data s).
Proof.
  unfold shuffle_data, shuffle, bind, get, on_world, zoom.
  destruct (shuffle_down_ok (length (sys_data s) - 1) (sys_data s) (sys_world s))
    as (l' & w' & E & Hl).
  rewrite E. eexists. split; [reflexivity|]. cbn. auto.
Qed.

(** ** Inference *)

(** C9 (amended). [test] changes no link weight and no bias of the network,
    in every outcome (panics included); when it returns, it returns [Ok]
    with exactly one unlabeled output vector per sample. *)
Theorem test_keeps_weights act s :
  weights_of (node_array (sys_net (snd (test act s))))
  = weights_of (node_array (sys_net s)) /\
  match fst (test act s) with
  | ROk outs => length outs = length (sys_data s) /\
                Forall (fun o => Input.answer o = None) outs
  | _ => True
  end.
Proof.
  destruct (shuffle_data_ok s) as (s1 & E1 & Hn & Hl).
  assert (Et : test act s = for_collect 0 (length (sys_data s1))
     (fun i => on_net (push_downstream act (sys_data s1) i) ;;;
               output <- on_net (answer_outputs act) ;;
               ret (Input.new output None)) s1).
  { unfold test. rewrite (bind_ok _ _ _ _ _ E1). reflexivity. }
  rewrite Et.
  set (W0 := weights_of (node_array (sys_net s))).
  assert (Hb : forall i, ht (fun st => keeps_w W0 (sys_net st)) (fun _ => True)
     (on_net (push_downstream act (sys_data s1) i) ;;;
      output <- on_net (answer_outputs act) ;;
      ret (Input.new output None)) (fun o _ => Input.answer o = None)).
  { intro i. eapply ht_bind.
    + apply ht_on_net with (Q := fun _ => True). apply ht_push_downstream.
    + intro u. eapply ht_bind.
      * apply ht_on_net with (Q := fun _ => True). apply ht_answer_outputs.
      * intro out. eapply ht_conseq; [apply ht_ret | intros; exact Logic.I |].
        intros a st [-> _]. reflexivity. }
  assert (HW0 : keeps_w W0 (sys_net s1)) by (unfold keeps_w; rewrite Hn; reflexivity).
  match goal with
  | |- context [for_collect 0 ?n ?b s1] =>
      pose proof (ht_for_collect _ b _ Hb 0%nat n (fun _ => True) s1 HW0 Logic.I) as Hc;
      destruct (for_collect 0 n b s1) as [[xs|e| |] s2]
  end; cbn; try rewrite <- Hl; unfold keeps_w in Hc; intuition.
Qed.

(** C9 (counterexample). On the network of [new 2 2 2 1 Sigmoid], [test]
    on a single one-feature sample panics instead of returning an output
    vector. *)
Lemma test_short_sample_panics :
  fst (test activate_ex (mkSys net_ex [short_sample_ex] world_ex)) = RPanic.
Proof. vm_compute. reflexivity. Qed.

(** ** Backpropagation *)

Lemma imap_const_map {A B} (f : A -> B) (l : list A) : imap (fun _ => f) l = map f l.
Proof. induction l as [|x l IH]; [reflexivity|]. rewrite imap_cons. cbn. f_equal. exact IH. Qed.

Lemma map_imap {A B C} (f : B -> C) (g : nat -> A -> B) (l : list A) :
  map f (imap g l) = imap (fun i x => f (g i x)) l.
Proof.
  revert g. induction l as [|x l IH]; intro g; [reflexivity|].
  rewrite !imap_cons. cbn. f_equal. apply IH.
Qed.

Lemma layer_done_0 g l : layer_done g l 0 l.
Proof. split; [reflexivity | split; intros; [lia | reflexivity]]. Qed.

Lemma layer_done_step g l j cur x :
  layer_done g l j cur -> l !! j = Some x -> layer_done g l (S j) (<[j := g j x]> cur).
Proof.
  intros (Hlen & Hlt & Hge) Hx.
  assert (Hj : (j < length l)%nat) by (eapply lookup_lt_Some; eauto).
  split; [rewrite length_insert; exact Hlen|]. split.
  - intros k Hk. destruct (decide (k = j)) as [->|Hne].
    + rewrite list_lookup_insert_eq by lia. rewrite list_lookup_imap, Hx. reflexivity.
    + rewrite list_lookup_insert_ne by lia. apply Hlt. lia.
  - intros k Hk. rewrite list_lookup_insert_ne by lia. apply Hge. lia.
Qed.

Lemma layer_done_full g l cur : layer_done g l (length l) cur -> cur = imap g l.
Proof.
  intros (Hlen & Hlt & Hge). apply list_eq. intro k.
  destruct (decide (k < length l)%nat) as [Hk|Hk]; [apply Hlt; exact Hk|].
  rewrite (lookup_ge_None_2 cur k) by lia. rewrite (lookup_ge_None_2 (imap g l) k) by (rewrite length_imap; lia). reflexivity.
Qed.

Lemma for_range_layer_map (emb : list Node -> NeuralNetwork) (body : nat -> M NeuralNetwork unit)
  (g : nat -> Node -> Node) (l : list Node) :
  (forall i cur x, layer_done g l i cur -> l !! i = Some x ->
     body i (emb cur) = (ROk tt, emb (<[i := g i x]> cur))) ->
  forall n j cur, (j + n)%nat = length l -> layer_done g l j cur ->
  for_range j n body (emb cur) = (ROk tt, emb (imap g l)).
Proof.
  intros Hb n. induction n as [|n IH]; intros j cur Hn Hd.
  - cbn. rewrite (layer_done_full g l cur); [reflexivity|]. replace (length l) with j by lia. exact Hd.
  - destruct (lookup_lt_is_Some_2 l j) as [x Hx]; [lia|].
    cbn [for_range]. rewrite (bind_ok _ _ _ _ _ (Hb j cur x Hd Hx)).
    apply IH; [lia|]. apply layer_done_step; assumption.
Qed.

Lemma bind_assoc {St A B C} (m : M St A) (k : A -> M St B) (k2 : B -> M St C) s :
  bind (bind m k) k2 s = bind m (fun a => bind (k a) k2) s.
Proof. unfold bind. destruct (m s) as [[a|e| |] s']; reflexivity. Qed.

Section Net3.
Variables (se : option nat) (pa : option Z) (af : ActivationFunction).
Local Abbreviation N3 a b c := (mkNet [a; b; c] se (Some 2%nat) pa af) (only parsing).

Lemma get_node_3_1 a b c i x : b !! i = Some x -> get_node 1 i (N3 a b c) = (ROk x, N3 a b c).
Proof. intro H. exact (get_node_ok 1 i (N3 a b c) b x eq_refl H). Qed.
Lemma get_node_3_2 a b c i x : c !! i = Some x -> get_node 2 i (N3 a b c) = (ROk x, N3 a b c).
Proof. intro H. exact (get_node_ok 2 i (N3 a b c) c x eq_refl H). Qed.
Lemma put_node_3_1 a b c i x : (i < length b)%nat ->
  put_node 1 i x (N3 a b c) = (ROk tt, N3 a (<[i := x]> b) c).
Proof. intro H. rewrite (put_node_ok 1 i x (N3 a b c) b eq_refl H). reflexivity. Qed.
Lemma put_node_3_2 a b c i x : (i < length c)%nat ->
  put_node 2 i x (N3 a b c) = (ROk tt, N3 a b (<[i := x]> c)).
Proof. intro H. rewrite (put_node_ok 2 i x (N3 a b c) c eq_refl H). reflexivity. Qed.

Lemma for_answer_nodes_3 f a b c :
  for_answer_nodes f (N3 a b c) = (ROk tt, N3 a b (imap (fun _ => f) c)).
Proof.
  unfold for_answer_nodes. cbv [bind get unwrap ret layer_len index]. cbn.
  apply (for_range_layer_map (fun cur => N3 a b cur) _ (fun _ => f) c); [| lia | apply layer_done_0].
  intros i cur x (Hl & _ & Hge) Hx.
  assert (Hc : cur !! i = Some x) by (rewrite Hge; auto).
  cbn. unfold index at 1, unwrap at 1. rewrite Hc. cbv [bind ret vec_set index unwrap put]. cbn. rewrite Hc. reflexivity.
Qed.

Lemma adjust_hidden_weights_3 lr a b c :
  Forall (fun m => is_Some (err_sig m) /\ (length b <= length (link_weights m))%nat) c ->
  Forall (fun n => is_Some (cached_output n)) b ->
  adjust_hidden_weights lr 1 (N3 a b c)
  = (ROk tt, N3 a (imap (fun h n => adjust_weights lr (set_err_sig n (Some (hidden_err_spec c h n)))) b) c).
Proof.
  intros Hc Hb. unfold adjust_hidden_weights.
  rewrite (bind_ok _ _ _ 2%Z (N3 a b c)) by reflexivity.
  replace (Z.to_nat (as_usize 2) - 1)%nat with 1%nat by reflexivity.
  cbn [for_range].
  erewrite bind_ok; [reflexivity|].
  rewrite (bind_ok _ _ _ (length b) (N3 a b c)) by reflexivity.
  apply (for_range_layer_map (fun cur => N3 a cur c)); [| lia | apply layer_done_0].
  intros h cur x (Hl & _ & Hge) Hx.
  assert (Hcx : cur !! h = Some x) by (rewrite Hge; auto).
  assert (Hh : (h < length b)%nat) by (eapply lookup_lt_Some; eauto).
  cbv beta.
  rewrite (bind_ok _ _ _ _ _ (get_node_3_1 a cur c h x Hcx)).
  rewrite (bind_ok _ _ _ _ _ (put_node_3_1 a cur c h _ ltac:(lia))).
  rewrite (bind_ok _ _ _ (length c) _) by reflexivity.
  match goal with |- bind (for_range 0 _ ?B) _ _ = _ => set (Bi := B) end.
  assert (Hin : forall n k acc, (k + n = length c)%nat ->
     for_range k n Bi (N3 a (<[h := set_err_sig x (Some acc)]> cur) c)
     = (ROk tt, N3 a (<[h := set_err_sig x (Some (fold_left
           (fun acc m => acc + default 0 (err_sig m) * default 0 (link_weights m !! h))
           (drop k c) acc))]> cur) c)).
  { induction n as [|n IH]; intros k acc Hk.
    - cbn. rewrite drop_ge by lia. reflexivity.
    - destruct (lookup_lt_is_Some_2 c k) as [m Hm]; [lia|].
      destruct (proj1 (Forall_lookup _ _) Hc k m Hm) as [[em Hem] Hwl].
      destruct (lookup_lt_is_Some_2 (link_weights m) h) as [w Hw]; [lia|].
      rewrite (drop_S c m k Hm). cbn [fold_left]. rewrite Hem, Hw. cbn [default].
      cbn [for_range]. unfold Bi at 1. cbv beta. change (1 + 1)%nat with 2%nat.
      rewrite bind_assoc. rewrite (bind_ok _ _ _ _ _ (get_node_3_2 _ _ _ k m Hm)).
      rewrite bind_assoc. rewrite (bind_ok _ _ _ w _) by (unfold index, unwrap; rewrite Hw; reflexivity).
      rewrite Hem. rewrite bind_assoc.
      assert (Hid : <[k := set_err_sig m (Some em)]> c = c).
      { apply list_insert_id. rewrite Hm. f_equal. destruct m; cbn in *. unfold set_err_sig. cbn. congruence. }
      rewrite (bind_ok _ _ _ _ _ (put_node_3_2 a (<[h:=set_err_sig x (Some acc)]> cur) c k _ ltac:(lia))). rewrite Hid.
      rewrite bind_assoc. rewrite (bind_ok _ _ _ _ _ (get_node_3_1 a (<[h:=set_err_sig x (Some acc)]> cur) c h _ ltac:(apply list_lookup_insert_eq; lia))).
      rewrite bind_assoc. rewrite (bind_ok _ _ _ acc _) by reflexivity.
      rewrite bind_assoc. rewrite (bind_ok _ _ _ _ _ (get_node_3_2 _ _ _ k m Hm)).
      rewrite bind_assoc. rewrite (bind_ok _ _ _ em _) by (unfold unwrap; rewrite Hem; reflexivity).
      rewrite (bind_ok _ _ _ _ _ (put_node_3_1 a (<[h:=set_err_sig x (Some acc)]> cur) c h _ ltac:(rewrite length_insert; lia))).
      rewrite list_insert_insert_eq.
      apply (IH (S k) (acc + em * w)). lia. }
  rewrite (bind_ok _ _ _ _ _ (Hin (length c) 0%nat 0 ltac:(lia))). cbv beta.
  set (S0 := fold_left _ (drop 0 c) 0).
  destruct (proj1 (Forall_lookup _ _) Hb h x Hx) as [o Ho].
  set (cur1 := <[h:=set_err_sig x (Some S0)]> cur).
  assert (Hl1 : (h < length cur1)%nat) by (unfold cur1; rewrite length_insert; lia).
  rewrite (bind_ok _ _ _ _ _ (get_node_3_1 a cur1 c h _ ltac:(apply list_lookup_insert_eq; lia))).
  rewrite (bind_ok _ _ _ o _) by (unfold unwrap; cbn; rewrite Ho; reflexivity).
  rewrite (bind_ok _ _ _ S0 _) by reflexivity.
  rewrite (bind_ok _ _ _ _ _ (put_node_3_1 a cur1 c h _ Hl1)).
  unfold cur1. rewrite list_insert_insert_eq.
  set (cur2 := <[h:=set_err_sig (set_err_sig x (Some S0)) (Some (S0 * o * (1 - o)))]> cur).
  assert (Hl2 : (h < length cur2)%nat) by (unfold cur2; rewrite length_insert; lia).
  rewrite (bind_ok _ _ _ _ _ (get_node_3_1 a cur2 c h _ ltac:(apply list_lookup_insert_eq; lia))).
  rewrite (put_node_3_1 a cur2 c h _ Hl2). unfold cur2.
  rewrite list_insert_insert_eq.
  unfold hidden_err_spec. rewrite Ho. reflexivity.
Qed.
End Net3.


(** For a network with exactly one hidden layer (layers [[l0; l1; l2]],
    the answer layer being [l2]) whose hidden nodes hold an output and whose
    answer nodes have a weight for every hidden node, [backpropogate] gives
    the same network as the two-phase reference (all error signals first,
    then all adjustments), although each hidden node's weights are adjusted
    right after its own error signal. *)
Theorem backpropogate_one_hidden_two_phase aerr lr mse net l0 l1 l2 :
  node_array net = [l0; l1; l2] -> answer net = Some 2%nat ->
  Forall (fun m => (length l1 <= length (link_weights m))%nat) l2 ->
  Forall (fun n => is_Some (cached_output n)) l1 ->
  backpropogate aerr lr 1 mse net
  = (ROk tt, set_node_array net (backprop_two_phase aerr lr mse 1 (node_array net))).
Proof.
  intros Hna Han Hw Ho. destruct net as [na se an pa af]; cbn in Hna, Han |- *. subst na an.
  unfold backpropogate.
  rewrite (bind_ok _ _ _ _ _ (for_answer_nodes_3 se pa af (compute_answer_err_sig_gen aerr mse) l0 l1 l2)).
  assert (Hc : Forall (fun m => is_Some (err_sig m) /\ (length l1 <= length (link_weights m))%nat)
                 (imap (fun _ => compute_answer_err_sig_gen aerr mse) l2)).
  { rewrite imap_const_map. apply Forall_map. eapply Forall_impl; [exact Hw|].
    intros m Hm. split; [eexists; reflexivity | exact Hm]. }
  rewrite (bind_ok _ _ _ _ _ (adjust_hidden_weights_3 se pa af lr l0 l1 _ Hc Ho)).
  rewrite for_answer_nodes_3.
  unfold backprop_two_phase. cbn.
  rewrite !imap_const_map, map_imap. reflexivity.
Qed.

Lemma backpropogate_one_hidden_two_phase_example :
  node_array fwd_ex = [layer_of fwd_ex 0; layer_of fwd_ex 1; layer_of fwd_ex 2] /\
  answer fwd_ex = Some 2%nat /\
  Forall (fun m => (length (layer_of fwd_ex 1) <= length (link_weights m))%nat) (layer_of fwd_ex 2) /\
  Forall (fun n => is_Some (cached_output n)) (layer_of fwd_ex 1) /\
  backpropogate answer_err_ex (1 # 2) 1 1 fwd_ex
  = (ROk tt, set_node_array fwd_ex (backprop_two_phase answer_err_ex (1 # 2) 1 1 (node_array fwd_ex))).
Proof.
  assert (H1 : node_array fwd_ex = [layer_of fwd_ex 0; layer_of fwd_ex 1; layer_of fwd_ex 2])
    by (vm_compute; reflexivity).
  assert (H2 : answer fwd_ex = Some 2%nat) by (vm_compute; reflexivity).
  assert (H3 : Forall (fun m => (length (layer_of fwd_ex 1) <= length (link_weights m))%nat)
                 (layer_of fwd_ex 2))
    by (apply (bool_decide_unpack _); vm_compute; reflexivity).
  assert (H4 : Forall (fun n => is_Some (cached_output n)) (layer_of fwd_ex 1))
    by (apply (bool_decide_unpack _); vm_compute; reflexivity).
  split; [exact H1 | split; [exact H2 | split; [exact H3 | split; [exact H4 |]]]].
  exact (backpropogate_one_hidden_two_phase answer_err_ex (1 # 2) 1 fwd_ex _ _ _ H1 H2 H3 H4).
Defined.

(** C6 (code_bug). With two hidden layers (the network of
    [new 1 1 1 2 Linear] after a forward pass), the first link weight of
    the first hidden layer after [backpropogate] differs from the two-phase
    reference's: that layer is adjusted before the error signals of the
    second hidden layer are computed. *)
Lemma backpropogate_two_hidden_differs :
  q_opt_eqb (first_weight (node_array (snd (backpropogate answer_err_ex (1 # 2) 2 1 fwd2_ex))) 1)
            (first_weight (backprop_two_phase answer_err_ex (1 # 2) 1 2 (node_array fwd2_ex)) 1)
  = false.
Proof. vm_compute. reflexivity. Qed.

(** C2 (code_bug). With two hidden layers (the network of
    [new 1 1 1 2 Linear] after a forward pass), [backpropogate] succeeds and
    leaves the first hidden layer's error signal at 0: [adjust_hidden_weights]
    walks the hidden layers from the first to the last, so layer 1 reads the
    [Some(0.0)] placeholder of layer 2. The error signal computed from the
    layer-2 signals and weights (the two-phase reference) is not 0. *)
Theorem backpropogate_first_hidden_layer_placeholder :
  fst (backpropogate answer_err_ex (1 # 2) 2 1 fwd2_ex) = ROk tt /\
  q_opt_eqb (first_err (node_array (snd (backpropogate answer_err_ex (1 # 2) 2 1 fwd2_ex))) 1)
            (Some 0) = true /\
  q_opt_eqb (first_err (backprop_two_phase answer_err_ex (1 # 2) 1 2 (node_array fwd2_ex)) 1)
            (Some 0) = false.
Proof. vm_compute. split; [reflexivity | split; reflexivity]. Qed.

(** ** The model codec *)

Lemma const_ret {St A} (a : A) : const_m (St:=St) (ret a).
Proof. intros s s'. reflexivity. Qed.
Lemma const_unwrap {St A} (o : option A) : const_m (St:=St) (unwrap o).
Proof. intros s s'. destruct o; reflexivity. Qed.
Lemma const_bind {St A B} (m : M St A) (k : A -> M St B) :
  const_m m -> (forall a, const_m (k a)) -> const_m (bind m k).
Proof.
  intros Hm Hk s s'. unfold bind. rewrite (Hm s s'). destruct (m s') as [r s2]. cbn.
  destruct r as [a| | |]; cbn; try reflexivity.
  rewrite (Hk a s s2). destruct (k a s2). reflexivity.
Qed.
Lemma const_concatM {St} (l : list (M St string)) :
  Forall const_m l -> const_m (concatM l).
Proof.
  induction 1; cbn.
  - apply const_ret.
  - apply const_bind; [assumption | intro; apply const_bind; [assumption | intro; apply const_ret]].
Qed.
Lemma const_node_text {St} (n : Node) : const_m (St:=St) (node_text n).
Proof. unfold node_text. apply const_bind; [apply const_unwrap | intro; apply const_ret]. Qed.
Lemma const_serialize {St} (net : NeuralNetwork) : const_m (St:=St) (serialize net).
Proof.
  unfold serialize. apply const_bind; [| intro; apply const_ret].
  apply const_concatM. apply Forall_lookup. intros i m Hm.
  rewrite list_lookup_imap in Hm. destruct (node_array net !! i) as [l|]; [|discriminate].
  injection Hm as <-.
  apply const_bind; [| intro; apply const_ret].
  apply const_concatM. apply List.Forall_map. apply Forall_forall. intros n _. apply const_node_text.
Qed.

(** C8. [write_model] never overwrites a file: every file that exists
    before keeps its content, whatever the outcome. On success the returned
    name is [model_<name>_<n>.darj] for some [n] below [2^32], no file of
    that name existed, and the only change to the files is that one holding
    the serialized network. When the drawn name exists (and its existence can
    be queried), the run is the one on the next draw. *)
Theorem write_model_no_overwrite fuel net name w :
  (forall p c, w_files w !! p = Some c ->
     w_files (snd (write_model fuel net name w)) !! p = Some c) /\
  match fst (write_model fuel net name w) with
  | ROk m => exists n, (0 <= n < 2 ^ 32)%Z /\ m = model_file_name name n /\
       w_files w !! m = None /\
       exists txt, fst (serialize net w) = ROk txt /\
         w_files (snd (write_model fuel net name w)) = <[m := txt]> (w_files w)
  | _ => True
  end /\
  (forall fuel', fuel = S fuel' ->
     let m0 := model_file_name name (w_rng w (w_pos w) mod 2 ^ 32) in
     m0 ∉ w_nostat w -> is_Some (w_files w !! m0) ->
     write_model fuel net name w = write_model fuel' net name (advance w)).
Proof.
  revert w. induction fuel as [|f IH]; intro w.
  - split; [|split]; cbn; auto. intros ? Hf. discriminate Hf.
  - assert (H3 : forall fuel', S f = S fuel' ->
              let m0 := model_file_name name (w_rng w (w_pos w) mod 2 ^ 32) in
              m0 ∉ w_nostat w -> is_Some (w_files w !! m0) ->
              write_model (S f) net name w = write_model fuel' net name (advance w)).
    { intros f' Hf'. injection Hf' as <-. cbv zeta. intros Hns Hin.
      cbn [write_model]. unfold bind at 1. cbn [draw fst snd].
      unfold bind at 1, try_exists. cbn [w_nostat w_files].
      rewrite decide_False by exact Hns. rewrite bool_decide_true by exact Hin. reflexivity. }
    enough (H12 : (forall p c, w_files w !! p = Some c ->
                     w_files (snd (write_model (S f) net name w)) !! p = Some c) /\
                  match fst (write_model (S f) net name w) with
                  | ROk m => exists n, (0 <= n < 2 ^ 32)%Z /\ m = model_file_name name n /\
                       w_files w !! m = None /\
                       exists txt, fst (serialize net w) = ROk txt /\
                         w_files (snd (write_model (S f) net name w)) = <[m := txt]> (w_files w)
                  | _ => True
                  end)
      by (destruct H12 as [HA HB]; split; [exact HA | split; [exact HB | exact H3]]).
    clear H3.
    remember (write_model (S f) net name w) as res eqn:Eres.
    cbn [write_model] in Eres. unfold bind at 1 in Eres. cbn [draw fst snd] in Eres.
    assert (Ew1 : advance w = mkWorld (w_files w) (w_nostat w) (w_nowrite w) (w_rng w) (S (w_pos w)))
      by reflexivity.
    rewrite <- Ew1 in Eres.
    assert (Ef : w_files (advance w) = w_files w) by reflexivity.
    assert (Ens : w_nostat (advance w) = w_nostat w) by reflexivity.
    assert (Enw : w_nowrite (advance w) = w_nowrite w) by reflexivity.
    clear Ew1.
    remember (advance w) as w1 eqn:Ew1.
    remember (w_rng w (w_pos w) mod 2 ^ 32)%Z as n eqn:En.
    assert (Hn : (0 <= n < 2 ^ 32)%Z) by (subst n; apply Z.mod_pos_bound; lia).
    remember (model_file_name name n) as m0 eqn:Em0.
    unfold bind at 1 in Eres. unfold try_exists in Eres. rewrite Ens, Ef in Eres.
    destruct (decide (m0 ∈ w_nostat w)) as [Hns|Hns].
    + subst res. cbn [fst snd throw]. rewrite Ef. split; auto.
    + destruct (w_files w !! m0) as [c0|] eqn:Hm0.
      * rewrite bool_decide_true in Eres by (eexists; reflexivity).
        subst res. destruct (IH w1) as (H1 & H2 & _).
        split.
        -- intros p c Hp. apply H1. rewrite Ef. exact Hp.
        -- destruct (fst (write_model f net name w1)); auto.
           destruct H2 as (k & Hk & Hm & Hf1 & txt & Ht & Hw). rewrite Ef in Hf1, Hw.
           exists k. split; [exact Hk|]. split; [exact Hm|]. split; [exact Hf1|].
           exists txt. split; [|exact Hw]. rewrite (const_serialize net w w1). exact Ht.
      * rewrite bool_decide_false in Eres by (intros [? Hx]; congruence).
        unfold bind at 1 in Eres. unfold fs_write at 1 in Eres. rewrite Enw in Eres.
        destruct (decide (m0 ∈ w_nowrite w)) as [Hnw|Hnw].
        -- subst res. cbn [fst snd unwrap bind]. unfold bind, panic. cbn [fst snd]. rewrite Ef. split; auto.
        -- unfold bind at 1 in Eres. cbn [unwrap fst snd] in Eres.
           set (w2 := set_files w1 (<[m0 := ""]> (w_files w1))) in Eres.
           unfold bind at 1 in Eres. cbn [ret] in Eres. rewrite (const_serialize net w2 w) in Eres.
           assert (Hfr : forall p c, w_files w !! p = Some c -> p <> m0)
             by (intros p c Hp ->; congruence).
           destruct (fst (serialize net w)) as [txt| | |] eqn:Es; cbn [fst snd] in Eres.
           ++ unfold bind, fs_write in Eres. unfold w2 in Eres. cbn [set_files w_nowrite w_files] in Eres.
              rewrite Enw, Ef in Eres.
              destruct (decide (m0 ∈ w_nowrite w)) as [Hnw'|Hnw']; [contradiction|].
              subst res. cbn [fst snd ret w_files set_files]. split.
              ** intros p c Hp. rewrite !lookup_insert_ne by (eapply not_eq_sym, Hfr; eauto). exact Hp.
              ** exists n. split; [exact Hn|]. split; [exact Em0|]. split; [exact Hm0|].
                 exists txt. split; [reflexivity|]. rewrite insert_insert_eq. reflexivity.
           ++ subst res. cbn [w2 set_files w_files fst snd]. rewrite Ef. split; auto.
              intros p c Hp. rewrite lookup_insert_ne by (eapply not_eq_sym, Hfr; eauto). exact Hp.
           ++ subst res. cbn [w2 set_files w_files fst snd]. rewrite Ef. split; auto.
              intros p c Hp. rewrite lookup_insert_ne by (eapply not_eq_sym, Hfr; eauto). exact Hp.
           ++ subst res. cbn [w2 set_files w_files fst snd]. rewrite Ef. split; auto.
              intros p c Hp. rewrite lookup_insert_ne by (eapply not_eq_sym, Hfr; eauto). exact Hp.
Qed.

(** C3 (code_bug). A network whose answer nodes have no link weight (no
    hidden node: [new(2, 0, 2, 1, Sigmoid)]) is written by [write_model] with
    [;b] lines after the first layer, and [read_model] panics on its own
    output: it parses the empty weight field. With two hidden nodes the round
    trip gives back the same layers, weights, biases and activation. *)
Theorem write_read_empty_link_weights_panics :
  match round_trip_ex 0 with Some (_, RPanic) => True | _ => False end /\
  match round_trip_ex 2 with Some (net, ROk net') => same_net_eqb net net' = true | _ => False end.
Proof. split; vm_compute; [exact Logic.I | reflexivity]. Qed.

(** C4 (code_bug). [read_model] panics, rather than returning an error, on
    a model file with a non-numeric weight, with a line missing its [;]
    field, with no activation line, and on an empty file; it accepts a
    well-formed file and returns an error for a missing file. *)
Theorem read_model_malformed_panics :
  fst (read_model "net.darj" (file_ex bad_weight_txt)) = RPanic /\
  fst (read_model "net.darj" (file_ex no_semicolon_txt)) = RPanic /\
  fst (read_model "net.darj" (file_ex no_activation_txt)) = RPanic /\
  fst (read_model "net.darj" (file_ex empty_txt)) = RPanic /\
  match fst (read_model "net.darj" (file_ex good_txt)) with ROk _ => True | _ => False end /\
  match fst (read_model "net.darj" world_ex) with RErr _ => True | _ => False end.
Proof.
  split; [vm_compute; reflexivity|]. split; [vm_compute; reflexivity|].
  split; [vm_compute; reflexivity|]. split; [vm_compute; reflexivity|].
  split; vm_compute; exact Logic.I.
Qed.

(** ** Answer analysis *)

Lemma opt_gt_true x y : opt_gt (Some x) (Some y) = true <-> y < x.
Proof. simpl. rewrite negb_true_iff. split; intro H.
  - apply Qnot_le_lt. intro H'. apply Qle_bool_iff in H'. congruence.
  - destruct (Qle_bool x y) eqn:E; [|reflexivity]. apply Qle_bool_iff in E. lra.
Qed.
Lemma opt_gt_false x y : opt_gt (Some x) (Some y) = false <-> x <= y.
Proof. simpl. rewrite negb_false_iff. apply Qle_bool_iff. Qed.

Lemma opt_gt_irrefl x : opt_gt x x = false.
Proof. destruct x as [q|]; [apply opt_gt_false; lra | reflexivity]. Qed.
Lemma opt_gt_step_a j l k : opt_gt k l = true -> opt_gt j l = false -> opt_gt j k = false.
Proof.
  destruct j as [a|], l as [b|], k as [c|]; simpl; try discriminate; auto.
  rewrite (opt_gt_true c b), (opt_gt_false a b), (opt_gt_false a c). lra.
Qed.
Lemma opt_gt_step_b j l k : opt_gt k l = true -> opt_gt j l = false -> opt_gt k j = true.
Proof.
  destruct j as [a|], l as [b|], k as [c|]; simpl; try discriminate; auto.
  rewrite (opt_gt_true c b), (opt_gt_false a b), (opt_gt_true c a). lra.
Qed.

Lemma for_fold_inv {St A} (body : nat -> A -> M St A) (P : nat -> A -> Prop) (g : nat -> A -> A) s n :
  forall lo acc,
  (forall i acc, (lo <= i < lo + n)%nat -> P i acc -> body i acc s = (ROk (g i acc), s) /\ P (S i) (g i acc)) ->
  P lo acc -> exists acc', for_fold lo n body acc s = (ROk acc', s) /\ P (lo + n)%nat acc'.
Proof.
  induction n as [|n IH]; intros lo acc Hb Hp.
  - exists acc. rewrite Nat.add_0_r. split; [reflexivity | exact Hp].
  - cbn [for_fold]. destruct (Hb lo acc) as [E Hp']; [lia | exact Hp |].
    rewrite (bind_ok _ _ _ _ _ E).
    destruct (IH (S lo) (g lo acc)) as (acc' & E' & Hp''); [intros; apply Hb; [lia|auto] | exact Hp' |].
    exists acc'. split; [exact E'|]. replace (lo + S n)%nat with (S lo + n)%nat by lia. exact Hp''.
Qed.


(** [largest_node] reads the network and leaves it unchanged; on an empty
    answer layer it returns 0, otherwise the index of the first node whose
    cached output is maximal ([None] below every [Some]). *)
Theorem largest_node_first_max net a layer :
  answer net = Some a -> node_array net !! a = Some layer ->
  exists i, largest_node net = (ROk i, net) /\
    (layer = [] -> i = 0%nat) /\
    (layer <> [] ->
       (i < length layer)%nat /\
       (forall j, (j < length layer)%nat -> opt_gt (co layer j) (co layer i) = false) /\
       (forall j, (j < i)%nat -> opt_gt (co layer i) (co layer j) = true)).
Proof.
  intros Ha Hl.
  set (P := fun k l => (k = 0%nat -> l = 0%nat) /\
              ((0 < k)%nat -> (l < k)%nat /\
                 (forall j, (j < k)%nat -> opt_gt (co layer j) (co layer l) = false) /\
                 (forall j, (j < l)%nat -> opt_gt (co layer l) (co layer j) = true))).
  unfold largest_node. cbv [bind get unwrap layer_len index ret]. rewrite Ha, Hl. cbn.
  match goal with |- context [for_fold 0 _ ?b _ net] => set (body := b) end.
  destruct (for_fold_inv body P (fun node l => if opt_gt (co layer node) (co layer l) then node else l)
              net (length layer) 0%nat 0%nat) as (i & E & Hi).
  - intros k l Hk [H0 Hpos].
    assert (Hlk : (l < length layer)%nat).
    { destruct (decide (k = 0%nat)) as [->|Hne]; [rewrite H0 by reflexivity; lia | destruct (Hpos ltac:(lia)); lia]. }
    destruct (lookup_lt_is_Some_2 layer k ltac:(lia)) as [x Hx].
    destruct (lookup_lt_is_Some_2 layer l Hlk) as [y Hy].
    assert (Hcx : co layer k = cached_output x) by (unfold co; rewrite Hx; reflexivity).
    assert (Hcy : co layer l = cached_output y) by (unfold co; rewrite Hy; reflexivity).
    split.
    + unfold body. cbv [get_node bind get index unwrap ret]. rewrite Ha, Hl, Hx, Hl. cbn. rewrite Hy, Hcx, Hcy. reflexivity.
    + split; [lia|]. intros _.
      destruct (opt_gt (co layer k) (co layer l)) eqn:Eg.
      * split; [lia|]. split.
        -- intros j Hj. destruct (decide (j = k)) as [->|Hjk]; [apply opt_gt_irrefl|].
           apply (opt_gt_step_a _ (co layer l)); [exact Eg|].
           destruct (decide (k = 0%nat)) as [->|Hne]; [lia|]. apply (proj1 (proj2 (Hpos ltac:(lia)))). lia.
        -- intros j Hj. apply (opt_gt_step_b _ (co layer l)); [exact Eg|].
           destruct (decide (k = 0%nat)) as [->|Hne]; [lia|]. apply (proj1 (proj2 (Hpos ltac:(lia)))). lia.
      * destruct (decide (k = 0%nat)) as [->|Hne].
        -- rewrite H0 by reflexivity. split; [lia|]. split; [|intros; lia].
           intros j Hj. replace j with 0%nat by lia. apply opt_gt_irrefl.
        -- destruct (Hpos ltac:(lia)) as (Hl' & Hge & Hlt). split; [lia|]. split; [|exact Hlt].
           intros j Hj. destruct (decide (j = k)) as [->|Hjk]; [exact Eg|]. apply Hge. lia.
  - split; [reflexivity | lia].
  - exists i. split; [exact E|]. destruct Hi as [H0 Hpos]. split.
    + intros ->. apply H0. reflexivity.
    + intros Hne. destruct layer; [congruence|]. apply Hpos. simpl. lia.
Qed.

Lemma po_with_self {St A} net (m : M NeuralNetwork A) :
  panics_only m -> @panics_only St A (with_self net m).
Proof. intros Hm s. unfold with_self. exact (Hm net). Qed.
Lemma po_usize_sub {St} a b : @panics_only St nat (usize_sub a b).
Proof. intro s. unfold usize_sub. destruct (b <=? a)%nat; exact I. Qed.
Lemma po_largest_node : panics_only largest_node.
Proof. unfold largest_node; po_solve. Qed.
#[export] Hint Resolve po_with_self po_usize_sub po_largest_node : po.

Lemma bind_post_panic {St A B} (m : M St A) (k : A -> M St B) (P : A -> Prop) :
  (forall s, match fst (m s) with ROk a => P a | RPanic => True | _ => False end) ->
  (forall a s, P a -> fst (k a s) = RPanic) ->
  forall s, fst (bind m k s) = RPanic.
Proof.
  intros Hm Hk s. specialize (Hm s). unfold bind.
  destruct (m s) as [[a|e| |] s']; simpl in *; try contradiction; auto.
Qed.

(** [self_analysis] panics (never returns an error) when the answer layer
    is empty, when no answer node has a category, when [line] is out of
    [data]'s range, or when the sample at [line] has no answer. *)
Theorem self_analysis_panics DEBUG teq d2s net epochs data line et a layer sc :
  answer net = Some a -> node_array net !! a = Some layer ->
  layer = [] \/ Forall (fun n => category n = None) layer \/ data !! line = None \/
  (exists smp, data !! line = Some smp /\ Input.answer smp = None) ->
  fst (self_analysis DEBUG teq d2s net epochs data line et sc) = RPanic.
Proof.
  intros Ha Hl Hc. unfold self_analysis.
  rewrite (bind_ok _ _ _ a sc) by (rewrite Ha; reflexivity).
  rewrite (bind_ok _ _ _ layer sc) by (unfold index; rewrite Hl; reflexivity).
  destruct Hc as [->|[Hcat|[Hd|(smp & Hd & Hans)]]].
  - apply bind_po_panic; [po_solve|]. intros ln s. reflexivity.
  - revert sc. apply bind_po_panic; [po_solve|]. intros ln s.
    apply (bind_post_panic _ _ (fun bn => category bn = None)).
    + intro s0. unfold index, unwrap. destruct (layer !! ln) as [bn|] eqn:E; [|exact I].
      cbn. exact (Forall_lookup_1 _ _ _ _ Hcat E).
    + intros bn s1 Hbn. apply bind_po_panic; [po_solve|]. intros br s2.
      apply bind_po_panic; [destruct epochs; po_solve; destruct (epoch_print _); po_solve; destruct DEBUG; po_solve|].
      intros [] s3. apply bind_po_panic; [destruct DEBUG; po_solve|]. intros [] s4.
      rewrite Hbn. reflexivity.
  - revert sc. apply bind_po_panic; [po_solve|]. intros ln s.
    apply bind_po_panic; [po_solve|]. intros bn s1.
    apply bind_po_panic; [po_solve|]. intros br s2.
    apply bind_po_panic; [destruct epochs; po_solve; destruct (epoch_print _); po_solve; destruct DEBUG; po_solve|].
    intros [] s3. apply bind_po_panic; [destruct DEBUG; po_solve|]. intros [] s4.
    apply bind_po_panic; [po_solve|]. intros cat s5.
    unfold index at 1. rewrite Hd. reflexivity.
  - revert sc. apply bind_po_panic; [po_solve|]. intros ln s.
    apply bind_po_panic; [po_solve|]. intros bn s1.
    apply bind_po_panic; [po_solve|]. intros br s2.
    apply bind_po_panic; [destruct epochs; po_solve; destruct (epoch_print _); po_solve; destruct DEBUG; po_solve|].
    intros [] s3. apply bind_po_panic; [destruct DEBUG; po_solve|]. intros [] s4.
    apply bind_po_panic; [po_solve|]. intros cat s5.
    rewrite (bind_ok _ _ _ smp s5) by (unfold index; rewrite Hd; reflexivity).
    rewrite Hans. reflexivity.
Qed.

Lemma mapM_const {St A B} (f : A -> M St B) (h : A -> Res B) :
  (forall x s, f x s = (h x, s)) ->
  forall l s, exists r, mapM f l s = (r, s) /\
    match r with
    | ROk ys => Forall2 (fun x y => h x = ROk y) l ys
    | RErr e => exists x, x ∈ l /\ h x = RErr e
    | RPanic => exists x, x ∈ l /\ h x = RPanic
    | RDiverge => exists x, x ∈ l /\ h x = RDiverge
    end.
Proof.
  intros Hf l. induction l as [|x l IH]; intro s.
  - exists (ROk []). split; [reflexivity | constructor].
  - cbn [mapM]. unfold bind at 1. rewrite Hf.
    destruct (h x) as [y|e| |] eqn:Eh.
    + unfold bind. destruct (IH s) as (r & E & Hr). rewrite E.
      destruct r as [ys|e| |].
      * exists (ROk (y :: ys)). split; [reflexivity | constructor; auto].
      * exists (RErr e). split; [reflexivity|]. destruct Hr as (z & Hz & Ez). exists z. split; [right; exact Hz | exact Ez].
      * exists RPanic. split; [reflexivity|]. destruct Hr as (z & Hz & Ez). exists z. split; [right; exact Hz | exact Ez].
      * exists RDiverge. split; [reflexivity|]. destruct Hr as (z & Hz & Ez). exists z. split; [right; exact Hz | exact Ez].
    + exists (RErr e). split; [reflexivity|]. exists x. split; [left | exact Eh].
    + exists RPanic. split; [reflexivity|]. exists x. split; [left | exact Eh].
    + exists RDiverge. split; [reflexivity|]. exists x. split; [left | exact Eh].
Qed.

Lemma Forall2_res_map {A B} (h : A -> Res B) (G : A -> B) (P : A -> Prop) l ys :
  (forall x y, h x = ROk y -> y = G x /\ P x) ->
  Forall2 (fun x y => h x = ROk y) l ys -> Forall P l /\ ys = map G l.
Proof.
  intros HG. induction 1 as [|x y l ys Hxy _ [IH1 IH2]]; [split; [constructor | reflexivity]|].
  destruct (HG _ _ Hxy) as [-> Hp]. split; [constructor; auto | cbn; rewrite IH2; reflexivity].
Qed.


Lemma ro_po_ret {St A} (a : A) : @ro_po St A (ret a).
Proof. intro s. left. eexists. reflexivity. Qed.
Lemma ro_po_unwrap {St A} (o : option A) : @ro_po St A (unwrap o).
Proof. intro s. destruct o; [left | right]; eexists; reflexivity. Qed.
Lemma ro_po_index {St A} (l : list A) i : @ro_po St A (index l i).
Proof. apply ro_po_unwrap. Qed.
Lemma ro_po_usize_sub {St} a b : @ro_po St nat (usize_sub a b).
Proof. intro s. unfold usize_sub. destruct (b <=? a)%nat; [left|right]; eexists; reflexivity. Qed.
Lemma ro_po_with_self {St A} net (m : M NeuralNetwork A) :
  panics_only m -> @ro_po St A (with_self net m).
Proof.
  intros Hm s. specialize (Hm net). unfold with_self.
  destruct (fst (m net)) as [a|e| |]; try contradiction; [left|right]; eexists; reflexivity.
Qed.
Lemma ro_po_bind {St A B} (m : M St A) (k : A -> M St B) :
  ro_po m -> (forall a, ro_po (k a)) -> ro_po (bind m k).
Proof.
  intros Hm Hk s. unfold bind. destruct (Hm s) as [[a E]|[s' E]]; rewrite E; [apply Hk | right; eauto].
Qed.
Lemma bind_panic_eq {St A B} (m : M St A) (k : A -> M St B) s s' :
  m s = (RPanic, s') -> bind m k s = (RPanic, s').
Proof. unfold bind. intros ->. reflexivity. Qed.


Ltac ro_po_solve :=
  repeat match goal with
  | |- ro_po (bind _ _) => apply ro_po_bind; [|intro]
  | |- ro_po (ret _) => apply ro_po_ret
  | |- ro_po (unwrap _) => apply ro_po_unwrap
  | |- ro_po (index _ _) => apply ro_po_index
  | |- ro_po (usize_sub _ _) => apply ro_po_usize_sub
  | |- ro_po (with_self _ _) => apply ro_po_with_self, po_largest_node
  | |- ro_po (match ?x with _ => _ end) => destruct x
  | |- ro_po (if ?b then _ else _) => destruct b
  end.


Lemma largest_node_first_max_witness :
  exists i, largest_node analysis_net_ex = (ROk i, analysis_net_ex) /\ (i < 3)%nat.
Proof.
  destruct (largest_node_first_max analysis_net_ex 1 analysis_layer_ex eq_refl eq_refl)
    as (i & E & _ & H). exists i. split; [exact E|].
  destruct (H ltac:(discriminate)) as [Hi _]. exact Hi.
Defined.

Lemma self_analysis_panics_witness :
  fst (self_analysis false types_eqb_ex d2s_ex fwd_ex None data_ex 0 (Float 0) (0, 0)) = RPanic.
Proof.
  apply (self_analysis_panics false types_eqb_ex d2s_ex fwd_ex None data_ex 0 (Float 0) 2
           (layer_of fwd_ex 2)); [vm_compute; reflexivity | vm_compute; reflexivity |].
  right; left. vm_compute. repeat constructor.
Defined.


(** ** Construction: a negative hidden-layer count *)

Theorem new_negative_hidden_layers_panics pi hn po hl af w :
  (-2147483648 <= hl < 0)%Z -> fst (new pi hn po hl af w) = RPanic.
Proof.
  intros Hhl. unfold new.
  assert (Hp : (2 ^ 64 = 18446744073709551616)%Z) by reflexivity.
  assert (Ha : as_usize hl = (hl + 2 ^ 64)%Z).
  { unfold as_usize. rewrite <- (Z_mod_plus_full hl 1). apply Z.mod_small. lia. }
  rewrite Ha. destruct (decide (hl = -1)%Z) as [->|Hne].
  - reflexivity.
  - rewrite (bind_ok _ _ _ (hl + 2 ^ 64 + 1)%Z w).
    2:{ unfold usize_add. replace (hl + 2 ^ 64 + 1 <? 2 ^ 64)%Z with true by (symmetry; apply Z.ltb_lt; lia). reflexivity. }
    rewrite (bind_ok _ _ _ (hl + 1)%Z w).
    2:{ unfold i32_add. replace ((-2147483648 <=? hl + 1) && (hl + 1 <=? 2147483647))%Z with true by (symmetry; apply andb_true_iff; split; apply Z.leb_le; lia). reflexivity. }
    replace (Z.to_nat (hl + 1 - 1)) with 0%nat by lia. cbn [build_hidden].
    unfold bind at 1, index at 1, unwrap at 1.
    rewrite (proj2 (lookup_ge_None _ _)); [reflexivity|].
    rewrite length_app. simpl. lia.
Qed.

(** ** Construction: shape of a new network *)

Lemma mapM_ok_rel {St A B} (f : A -> M St B) (R : A -> B -> Prop) :
  (forall x s, exists y s', f x s = (ROk y, s') /\ R x y) ->
  forall l s, exists l' s', mapM f l s = (ROk l', s') /\ Forall2 R l l'.
Proof.
  intros Hf l. induction l as [|x l IH]; intro s.
  - exists [], s. split; [reflexivity | constructor].
  - destruct (Hf x s) as (y & s1 & E1 & Hy). destruct (IH s1) as (l' & s2 & E2 & Hl).
    exists (y :: l'), s2. cbn [mapM]. rewrite (bind_ok _ _ _ _ _ E1), (bind_ok _ _ _ _ _ E2).
    split; [reflexivity | constructor; auto].
Qed.

Lemma gen_weight_range w :
  exists q w', gen_weight w = (ROk q, w') /\ -(1 # 2) <= q < 1 # 2.
Proof.
  unfold gen_weight, bind, draw, ret. eexists _, _. split; [reflexivity|].
  set (m := (w_rng w (w_pos w) mod 2 ^ 24)%Z).
  assert (Hm : (0 <= m < 2 ^ 24)%Z) by (apply Z.mod_pos_bound; reflexivity).
  assert (H0 : 0 <= inject_Z m / inject_Z (2 ^ 24)).
  { apply Qle_shift_div_l; [reflexivity|]. unfold Qle. simpl. lia. }
  assert (H1 : inject_Z m / inject_Z (2 ^ 24) < 1).
  { apply Qlt_shift_div_r; [reflexivity|]. unfold Qlt. simpl. lia. }
  split; lra.
Qed.

Lemma for_collect_gen_weight lo k w :
  exists ws w', for_collect lo k (fun _ => gen_weight) w = (ROk ws, w') /\
    length ws = k /\ Forall (fun q => -(1 # 2) <= q < 1 # 2) ws.
Proof.
  revert lo w. induction k as [|k IH]; intros lo w.
  - exists [], w. split; [reflexivity | split; [reflexivity | constructor]].
  - destruct (gen_weight_range w) as (q & w1 & E1 & Hq).
    destruct (IH (S lo) w1) as (ws & w2 & E2 & Hl & Hr).
    exists (q :: ws), w2. cbn [for_collect]. rewrite (bind_ok _ _ _ _ _ E1), (bind_ok _ _ _ _ _ E2).
    split; [reflexivity | split; [simpl; lia | constructor; auto]].
Qed.

Lemma init_node_rel n w :
  exists n' w', init_node n w = (ROk n', w') /\
    (exists ws, link_weights n' = link_weights n ++ ws /\ length ws = links n /\
                Forall (fun q => -(1 # 2) <= q < 1 # 2) ws) /\
    link_vals n' = link_vals n ++ replicate (links n) None /\ links n' = links n /\
    err_sig n' = err_sig n /\ correct_answer n' = correct_answer n /\
    cached_output n' = cached_output n /\ category n' = category n /\
    (exists b, b_weight n' = Some b /\ -(1 # 2) <= b < 1 # 2).
Proof.
  destruct (gen_weight_range w) as (b & w1 & E1 & Hb).
  destruct (for_collect_gen_weight 0 (links n) w1) as (ws & w2 & E2 & Hl & Hr).
  unfold init_node. rewrite (bind_ok _ _ _ _ _ E1), (bind_ok _ _ _ _ _ E2).
  eexists _, _. split; [reflexivity|]. cbn. repeat split; eauto.
Qed.

Lemma build_hidden_eq c hn na :
  build_hidden c hn na = na ++ map (fun j => replicate hn (node_unlinked
      (match j with O => length (default [] (na !! (length na - 1)%nat)) | S _ => hn end) None))
    (seq 0 c).
Proof.
  revert na. induction c as [|c IH]; intro na; [simpl; rewrite app_nil_r; reflexivity|].
  cbn [build_hidden]. rewrite IH. rewrite <- app_assoc. f_equal.
  cbn [seq map app]. f_equal. rewrite <- seq_shift, map_map.
  rewrite length_app. cbn [length]. replace (length na + 1 - 1)%nat with (length na) by lia.
  rewrite lookup_app_r by lia. rewrite Nat.sub_diag. cbn. rewrite length_replicate.
  apply map_ext. intros [|j]; reflexivity.
Qed.
Theorem new_shape pi hn po hl af w :
  (0 <= hl < 2147483647)%Z ->
  exists net w', new pi hn po hl af w = (ROk net, w') /\
    sensor net = Some 0%nat /\ answer net = Some (Z.to_nat hl + 1)%nat /\
    activation_function net = af /\
    length (node_array net) = (Z.to_nat hl + 2)%nat /\
    (forall k layer, node_array net !! k = Some layer ->
       length layer = Z.to_nat (if (k =? 0)%nat then pi else if (Z.of_nat k <=? hl)%Z then hn else po) /\
       Forall (fun n =>
         links n = match k with O => 0%nat | S k' => length (layer_of net k') end /\
         length (link_weights n) = links n /\ link_vals n = replicate (links n) None /\
         Forall (fun q => -(1 # 2) <= q < 1 # 2) (link_weights n) /\
         (exists b, b_weight n = Some b /\ -(1 # 2) <= b < 1 # 2) /\
         err_sig n = None /\ correct_answer n = None /\ category n = None /\
         cached_output n = (if (k =? Z.to_nat hl + 1)%nat then Some 0 else None)) layer).
Proof.
  intros Hhl. unfold new.
  set (size := fun k : nat => Z.to_nat (if (k =? 0)%nat then pi else if (Z.of_nat k <=? hl)%Z then hn else po)).
  set (proto := fun k : nat => mkNode [] [] (match k with O => 0%nat | S k' => size k' end) None None
                  (if (k =? Z.to_nat hl + 1)%nat then Some 0 else None) None None).
  assert (Hp : (2 ^ 64 = 18446744073709551616)%Z) by reflexivity.
  assert (Ha : as_usize hl = hl) by (unfold as_usize; apply Z.mod_small; lia).
  rewrite Ha.
  rewrite (bind_ok _ _ _ (hl + 1)%Z w).
  2:{ unfold usize_add. replace (hl + 1 <? 2^64)%Z with true by (symmetry; apply Z.ltb_lt; lia). reflexivity. }
  rewrite (bind_ok _ _ _ (hl + 1)%Z w).
  2:{ unfold i32_add. replace ((-2147483648 <=? hl + 1) && (hl + 1 <=? 2147483647))%Z with true by (symmetry; apply andb_true_iff; split; apply Z.leb_le; lia). reflexivity. }
  replace (hl + 1 - 1)%Z with hl by lia.
  replace (Z.to_nat (hl + 1)) with (Z.to_nat hl + 1)%nat by lia.
  rewrite build_hidden_eq. cbn [length]. replace (1 - 1)%nat with 0%nat by lia. cbn [lookup list_lookup default].
  unfold id. rewrite length_replicate.
  set (H := [replicate (Z.to_nat pi) (node_new [] None)] ++ map _ (seq 0 (Z.to_nat hl))).
  assert (HlenH : length H = (Z.to_nat hl + 1)%nat).
  { subst H. rewrite length_app, length_map, length_seq. simpl. lia. }
  assert (HH : forall k L, H !! k = Some L -> L = replicate (size k) (proto k)).
  { intros k L. subst H. destruct k as [|k].
    - intros [= <-]. unfold size, proto, node_new. rewrite Nat.add_1_r. reflexivity.
    - cbn [app]. rewrite lookup_cons. rewrite list_lookup_fmap.
      destruct (seq 0 (Z.to_nat hl) !! k) eqn:Es; [|discriminate]. cbn. intros [= <-].
      apply lookup_seq in Es as [-> Hk]. cbn [plus].
      unfold proto, size. replace (S k =? 0)%nat with false by reflexivity.
      replace (Z.of_nat (S k) <=? hl)%Z with true by (symmetry; apply Z.leb_le; lia).
      replace (S k =? Z.to_nat hl + 1)%nat with false by (symmetry; apply Nat.eqb_neq; lia).
      destruct k as [|k]; [reflexivity|].
      replace (S k =? 0)%nat with false by reflexivity.
      replace (Z.of_nat (S k) <=? hl)%Z with true by (symmetry; apply Z.leb_le; lia).
      reflexivity. }
  destruct (lookup_lt_is_Some_2 H (Z.to_nat hl)) as [prev Hprev]; [lia|].
  rewrite (bind_ok _ _ _ prev w) by (unfold index; rewrite lookup_app_l by lia; rewrite Hprev; reflexivity).
  assert (Hlp : length prev = size (Z.to_nat hl)).
  { rewrite (HH _ _ Hprev). apply length_replicate. }
  set (na0 := H ++ [replicate (Z.to_nat po) (node_unlinked (length prev) (Some 0))]).
  assert (Hna0 : (if decide (Z.to_nat po = 0%nat) then ret (H ++ [[]])
      else alayer <- index (H ++ [[]]) (Z.to_nat hl + 1) ;;
           ret (<[(Z.to_nat hl + 1)%nat := alayer ++ replicate (Z.to_nat po)
                   (node_unlinked (length prev) (Some 0))]> (H ++ [[]]))) w = (ROk na0, w)).
  { subst na0. destruct (decide _) as [E|E].
    - rewrite E. reflexivity.
    - unfold bind, index, unwrap. rewrite lookup_app_r by lia. rewrite HlenH, Nat.sub_diag.
      cbn [lookup list_lookup ret app]. rewrite insert_app_r_alt by lia. rewrite HlenH, Nat.sub_diag. reflexivity. }
  rewrite (bind_ok _ _ _ _ _ Hna0).
  assert (Hlen0 : length na0 = (Z.to_nat hl + 2)%nat) by (subst na0; rewrite length_app, HlenH; cbn [length]; lia).
  assert (H0 : forall k L, na0 !! k = Some L -> L = replicate (size k) (proto k)).
  { intros k L Hk. subst na0. destruct (decide (k < Z.to_nat hl + 1)%nat).
    - rewrite lookup_app_l in Hk by lia. exact (HH _ _ Hk).
    - rewrite lookup_app_r in Hk by lia. rewrite HlenH in Hk.
      destruct (k - (Z.to_nat hl + 1))%nat eqn:Ek; [|rewrite lookup_cons in Hk; rewrite lookup_nil in Hk; discriminate].
      injection Hk as <-. assert (k = Z.to_nat hl + 1)%nat as -> by lia.
      unfold size, proto. rewrite Nat.eqb_refl.
      replace (Z.to_nat hl + 1 =? 0)%nat with false by (symmetry; apply Nat.eqb_neq; lia).
      replace (Z.of_nat (Z.to_nat hl + 1) <=? hl)%Z with false by (symmetry; apply Z.leb_gt; lia).
      replace (Z.to_nat hl + 1)%nat with (S (Z.to_nat hl)) by lia. rewrite Hlp. reflexivity. }
  set (R := fun n n' : Node =>
    (exists ws, link_weights n' = link_weights n ++ ws /\ length ws = links n /\
                Forall (fun q => -(1 # 2) <= q < 1 # 2) ws) /\
    link_vals n' = link_vals n ++ replicate (links n) None /\ links n' = links n /\
    err_sig n' = err_sig n /\ correct_answer n' = correct_answer n /\
    cached_output n' = cached_output n /\ category n' = category n /\
    (exists b, b_weight n' = Some b /\ -(1 # 2) <= b < 1 # 2)).
  destruct (mapM_ok_rel (mapM init_node) (Forall2 R)
              (mapM_ok_rel init_node R init_node_rel) na0 w) as (na1 & w1 & E1 & HF).
  rewrite (bind_ok _ _ _ _ _ E1). eexists _, _. split; [reflexivity|].
  cbn [sensor answer activation_function node_array].
  assert (Hlen1 : length na1 = (Z.to_nat hl + 2)%nat) by (rewrite <- (Forall2_length _ _ _ HF); exact Hlen0).
  assert (Hsz : forall k layer, na1 !! k = Some layer -> length layer = size k).
  { intros k layer Hk. destruct (Forall2_lookup_r _ _ _ _ _ HF Hk) as (L0 & HL0 & HR).
    rewrite <- (Forall2_length _ _ _ HR), (H0 _ _ HL0). apply length_replicate. }
  split; [reflexivity|]. split; [reflexivity|]. split; [reflexivity|]. split; [exact Hlen1|].
  intros k layer Hk. split; [exact (Hsz _ _ Hk)|].
  destruct (Forall2_lookup_r _ _ _ _ _ HF Hk) as (L0 & HL0 & HR). rewrite (H0 _ _ HL0) in HR.
  apply Forall_lookup. intros i n Hi.
  destruct (Forall2_lookup_r _ _ _ _ _ HR Hi) as (p & Hpr & Hpn).
  apply lookup_replicate in Hpr as [-> _].
  destruct Hpn as ((ws & Hw & Hwl & Hwr) & Hv & Hln & He & Hc & Ho & Hcat & Hb).
  cbn [proto link_weights link_vals links err_sig correct_answer cached_output category] in *.
  assert (Hlinks : links n = match k with O => 0%nat | S k' => length (layer_of (mkNet na1 (Some 0%nat) (Some (Z.to_nat hl + 1)%nat) (Some (count_params na1)) af) k') end).
  { rewrite Hln. destruct k as [|k]; [reflexivity|].
    apply lookup_lt_Some in Hk. destruct (lookup_lt_is_Some_2 na1 k) as [l' Hl']; [lia|].
    unfold layer_of. cbn [node_array]. rewrite Hl'. cbn. symmetry. exact (Hsz _ _ Hl'). }
  split; [exact Hlinks|].
  rewrite Hw, Hv, Hln, He, Hc, Ho, Hcat. cbn [app].
  repeat split; auto.
Qed.

(** ** Inference: the samples are only reordered *)

Lemma swap_perm {A} i j (l : list A) : swap i j l ≡ₚ l.
Proof.
  unfold swap. destruct (l !! i) as [x|] eqn:Ei, (l !! j) as [y|] eqn:Ej; try reflexivity.
  apply Permutation_insert_swap; assumption.
Qed.

Lemma shuffle_down_perm {A} k (l : list A) w :
  exists l' w', shuffle_down k l w = (ROk l', w') /\ l' ≡ₚ l /\ w_files w' = w_files w.
Proof.
  revert l w. induction k as [|k IH]; intros l w; cbn; [eauto|].
  destruct (IH (swap (S k) (Z.to_nat (w_rng w (w_pos w) mod Z.of_nat (S (S k)))%Z) l)
              (mkWorld (w_files w) (w_nostat w) (w_nowrite w) (w_rng w) (S (w_pos w))))
    as (l' & w' & E & Hl & Hf).
  rewrite E. exists l', w'. split; [reflexivity|]. rewrite Hl, swap_perm. auto.
Qed.

Lemma on_net_data_world {A} (m : M NeuralNetwork A) s :
  sys_data (snd (on_net m s)) = sys_data s /\ sys_world (snd (on_net m s)) = sys_world s.
Proof. unfold on_net, zoom. destruct (m (sys_net s)). auto. Qed.

Lemma shuffle_data_perm s :
  exists s', shuffle_data s = (ROk tt, s') /\ sys_data s' ≡ₚ sys_data s /\
             w_files (sys_world s') = w_files (sys_world s).
Proof.
  unfold shuffle_data, shuffle, bind, get, on_world, zoom.
  destruct (shuffle_down_perm (length (sys_data s) - 1) (sys_data s) (sys_world s))
    as (l' & w' & E & Hl & Hf).
  rewrite E. eexists. split; [reflexivity|]. cbn. auto.
Qed.

(** [test] shuffles the caller's samples in place: in every outcome, panics
    included, they are a permutation of what they were, and the file system
    is unchanged. *)
Theorem test_permutes_data act s :
  sys_data (snd (test act s)) ≡ₚ sys_data s /\
  w_files (sys_world (snd (test act s))) = w_files (sys_world s).
Proof.
  destruct (shuffle_data_perm s) as (s1 & E1 & Hl & Hf).
  assert (Et : test act s = for_collect 0 (length (sys_data s1))
     (fun i => on_net (push_downstream act (sys_data s1) i) ;;;
               output <- on_net (answer_outputs act) ;;
               ret (Input.new output None)) s1).
  { unfold test. rewrite (bind_ok _ _ _ _ _ E1). reflexivity. }
  rewrite Et. rewrite <- Hl, <- Hf.
  set (d := sys_data s1).
  enough (Hc : forall body lo n st,
            (forall i st, sys_data (snd (body i st)) = sys_data st /\
                          sys_world (snd (body i st)) = sys_world st) ->
            sys_data (snd (@for_collect _ Input.t lo n body st)) = sys_data st /\
            sys_world (snd (for_collect lo n body st)) = sys_world st).
  { edestruct Hc as [H1 H2]; [|rewrite H1, H2; split; reflexivity].
    intros i st. unfold bind.
    destruct (on_net_data_world (push_downstream act d i) st) as [D1 W1].
    destruct (on_net (push_downstream act d i) st) as [[]  st1]; cbn in *; auto.
    destruct (on_net_data_world (answer_outputs act) st1) as [D2 W2].
    destruct (on_net (answer_outputs act) st1) as [[] st2]; cbn in *; split; congruence. }
  intros body lo n. revert lo. induction n as [|n IH]; intros lo st Hb; cbn; [auto|].
  unfold bind. destruct (Hb lo st) as [D1 W1].
  destruct (body lo st) as [[x| | |] st1]; cbn in *; auto.
  destruct (IH (S lo) st1 Hb) as [D2 W2].
  destruct (for_collect (S lo) n body st1) as [[| | |] st2]; cbn in *; split; congruence.
Qed.

(** ** The model codec: a node without bias *)

Lemma concatM_panic {St} (l : list (M St string)) :
  Forall panics_only l -> Exists (fun m => forall s, fst (m s) = RPanic) l ->
  forall s, fst (concatM l s) = RPanic.
Proof.
  intros Hpo Hex. revert Hpo. induction Hex as [m l Hm|m l Hex IH]; intros Hpo s; cbn [concatM].
  - apply bind_panic_l. apply Hm.
  - inversion Hpo as [|? ? Hm Hl]; subst. apply bind_po_panic; [exact Hm|]. intros a s'.
    apply bind_panic_l. apply IH; exact Hl.
Qed.

Lemma po_concatM {St} (l : list (M St string)) : Forall panics_only l -> panics_only (concatM l).
Proof. induction 1; cbn [concatM]; po_solve. Qed.

Lemma po_node_text {St} (n : Node) : panics_only (St:=St) (node_text n).
Proof. unfold node_text. po_solve. Qed.

Lemma serialize_missing_bias_panics {St} (net : NeuralNetwork) (s : St) :
  Exists (Exists (fun n => b_weight n = None)) (node_array net) ->
  fst (serialize net s) = RPanic.
Proof.
  intros Hex. unfold serialize. apply bind_panic_l.
  apply concatM_panic.
  - apply Forall_lookup. intros i m Hm. rewrite list_lookup_imap in Hm.
    destruct (node_array net !! i) as [l|]; [|discriminate]. injection Hm as <-.
    apply po_bind; [|intro; apply po_ret].
    apply po_concatM. apply List.Forall_map. apply Forall_forall. intros n _. apply po_node_text.
  - apply Exists_exists in Hex as (layer & Hin & Hl).
    apply list_elem_of_lookup_1 in Hin as [i Hi].
    apply Exists_exists. eexists. split.
    + apply list_elem_of_lookup_2 with i. rewrite list_lookup_imap, Hi. reflexivity.
    + intro s0. apply bind_panic_l. apply concatM_panic.
      * apply List.Forall_map. apply Forall_forall. intros n _. apply po_node_text.
      * apply List.Exists_map. eapply Exists_impl; [exact Hl|].
        intros n Hn s1. unfold node_text. rewrite Hn. reflexivity.
Qed.

(** When the first drawn model name is free and can be created, but a node
    of the network has no bias, [write_model] panics after [File::create]:
    it leaves an empty file under that name. *)
Theorem write_model_missing_bias_panics fuel net name w :
  let m0 := model_file_name name (w_rng w (w_pos w) mod 2 ^ 32) in
  m0 ∉ w_nostat w -> w_files w !! m0 = None -> m0 ∉ w_nowrite w ->
  Exists (Exists (fun n => b_weight n = None)) (node_array net) ->
  write_model (S fuel) net name w = (RPanic, set_files (advance w) (<[m0 := ""]> (w_files w))).
Proof.
  intros m0 Hns Hm0 Hnw Hex.
  cbn [write_model]. unfold bind at 1. cbn [draw].
  change (mkWorld (w_files w) (w_nostat w) (w_nowrite w) (w_rng w) (S (w_pos w))) with (advance w).
  fold m0. unfold bind at 1, try_exists.
  change (w_nostat (advance w)) with (w_nostat w). change (w_files (advance w)) with (w_files w).
  rewrite decide_False by exact Hns. rewrite Hm0. rewrite bool_decide_false by (intros [? Hx]; discriminate).
  unfold bind at 1, fs_write at 1. change (w_nowrite (advance w)) with (w_nowrite w).
  rewrite decide_False by exact Hnw. change (w_files (advance w)) with (w_files w).
  unfold bind at 1. cbn [unwrap ret].
  set (w2 := set_files (advance w) (<[m0 := ""]> (w_files w))).
  unfold bind at 1.
  pose proof (serialize_missing_bias_panics net w2 Hex) as Hp.
  pose proof (const_serialize net w2 w2) as Hc.
  destruct (serialize net w2) as [r s2]. cbn in Hp. subst r. injection Hc as <-. reflexivity.
Qed.

(** ** The model codec: what reading a model yields *)

Lemma bind_ok_inv {St A B} (m : M St A) (k : A -> M St B) s b s' :
  bind m k s = (ROk b, s') -> exists a s1, m s = (ROk a, s1) /\ k a s1 = (ROk b, s').
Proof.
  unfold bind. destruct (m s) as [[a| | |] s1]; intro H; try discriminate. eauto.
Qed.

Lemma read_node_ok {St} k i (s : St) n s' :
  read_node k i s = (ROk n, s') ->
  s' = s /\ link_vals n = replicate (length (link_weights n)) None /\
  links n = length (link_weights n) /\ is_Some (b_weight n) /\
  err_sig n = None /\ correct_answer n = None /\ cached_output n = None /\ category n = None /\
  (k = 0%nat -> link_weights n = []).
Proof.
  unfold read_node. destruct (k =? 0)%nat eqn:Ek.
  - intro H. apply bind_ok_inv in H as (bs & s1 & H1 & H).
    unfold index, unwrap in H1. destruct (_ !! 1%nat); [|discriminate]. injection H1 as <- <-.
    apply bind_ok_inv in H as (b & s2 & H2 & H). unfold unwrap in H2.
    destruct (parse_f32 _); [|discriminate]. injection H2 as <- <-. injection H as <- <-.
    cbn. repeat split; eauto.
  - intro H. apply bind_ok_inv in H as (ws & s1 & H1 & H).
    unfold index, unwrap in H1. destruct (_ !! 0%nat); [|discriminate]. injection H1 as <- <-.
    apply bind_ok_inv in H as (bw & s2 & H2 & H).
    unfold index, unwrap in H2. destruct (_ !! 1%nat); [|discriminate]. injection H2 as <- <-.
    apply bind_ok_inv in H as (wa & s3 & H3 & H).
    lazymatch type of H3 with mapM _ ?l _ = _ =>
      destruct (mapM_const (fun s0 : string => unwrap (St:=St) (parse_f32 s0))
                (fun s0 => match parse_f32 s0 with Some q => ROk q | None => RPanic end)
                ltac:(intros x sx; unfold unwrap; destruct (parse_f32 x); reflexivity)
                l s) as (r & Er & _) end.
    rewrite Er in H3. injection H3 as -> <-.
    apply bind_ok_inv in H as (b & s4 & H4 & H). unfold unwrap in H4.
    destruct (parse_f32 _); [|discriminate]. injection H4 as <- <-. injection H as <- <-.
    cbn. repeat split; eauto. apply Nat.eqb_neq in Ek. intro; contradiction.
Qed.

Lemma read_lines_ok {St} ls na layer act (s : St) na' act' s' :
  read_lines ls na layer act s = (ROk (na', act'), s') ->
  Forall (Forall fresh_node) na -> Forall fresh_node layer ->
  (forall L0, na !! 0%nat = Some L0 -> Forall (fun n => link_weights n = []) L0) ->
  (na = [] -> Forall (fun n => link_weights n = []) layer) ->
  s' = s /\ length na' = (length na + length (List.filter lb_line ls))%nat /\
  Forall (Forall fresh_node) na' /\
  (forall L0, na' !! 0%nat = Some L0 -> Forall (fun n => link_weights n = []) L0) /\
  (act' = act \/ exists a, act' = Some a /\ activation_name a ∈ ls).
Proof.
  revert na layer act s. induction ls as [|i ls IH]; intros na layer act s H Hna Hl H0 Hnil.
  - cbn in H. injection H as <- <- <-. cbn. repeat split; auto; lia.
  - cbn [read_lines] in H. cbn [List.filter]. unfold lb_line at 1.
    destruct (String.eqb i "sigmoid") eqn:E1;
      [|destruct (String.eqb i "linear") eqn:E2;
        [|destruct (String.eqb i "tanh") eqn:E3;
          [|destruct (String.eqb i "step") eqn:E4]]]; cbn [orb negb andb].
    1-4: destruct (IH _ _ _ _ H Hna Hl H0 Hnil) as (-> & Hlen & HF & H0' & Hact);
         (split; [reflexivity|]); (split; [exact Hlen|]); (split; [exact HF|]); (split; [exact H0'|]);
         right; destruct Hact as [->|(a & -> & Ha)];
         [eexists; split; [reflexivity|];
          repeat match goal with E : String.eqb _ _ = true |- _ => apply String.eqb_eq in E; subst i end;
          left
         |exists a; split; [reflexivity | right; exact Ha]].
    + destruct (String.eqb (trim i) "lb") eqn:E5.
      * destruct (IH _ _ _ _ H) as (-> & Hlen & HF & H0' & Hact).
        -- apply Forall_app. split; [exact Hna | constructor; [exact Hl | constructor]].
        -- constructor.
        -- intros L0 HL0. destruct na as [|x na].
           ++ cbn in HL0. injection HL0 as <-. apply Hnil. reflexivity.
           ++ apply H0. exact HL0.
        -- intros Hc. destruct na; discriminate.
        -- split; [reflexivity|]. split; [rewrite Hlen, length_app; cbn [length]; lia|].
           split; [exact HF|]. split; [exact H0'|].
           destruct Hact as [->|(a & -> & Ha)]; [left; reflexivity | right; exists a; split; [reflexivity | right; exact Ha]].
      * apply bind_ok_inv in H as (node & s1 & Hn & H).
        destruct (read_node_ok _ _ _ _ _ Hn) as (-> & Hv & Hlk & Hb & He & Hc & Ho & Hcat & Hw).
        destruct (IH _ _ _ _ H) as (-> & Hlen & HF & H0' & Hact).
        -- exact Hna.
        -- apply Forall_app. split; [exact Hl|]. constructor; [|constructor]. repeat split; assumption.
        -- exact H0.
        -- intros ->. apply Forall_app. split; [apply Hnil; reflexivity|]. constructor; [|constructor].
           apply Hw. reflexivity.
        -- split; [reflexivity|]. split; [exact Hlen|].
           split; [exact HF|]. split; [exact H0'|].
           destruct Hact as [->|(a & -> & Ha)]; [left; reflexivity | right; exists a; split; [reflexivity | right; exact Ha]].
Qed.

Lemma ro_po_mapM {St A B} (f : A -> M St B) :
  (forall x, ro_po (f x)) -> forall l, ro_po (mapM f l).
Proof.
  intros Hf l. induction l as [|x l IH]; cbn [mapM]; [apply ro_po_ret|].
  apply ro_po_bind; [apply Hf | intro; apply ro_po_bind; [exact IH | intro; apply ro_po_ret]].
Qed.

Lemma ro_po_read_node {St} k i : ro_po (St:=St) (read_node k i).
Proof.
  unfold read_node. destruct (k =? 0)%nat.
  - apply ro_po_bind; [apply ro_po_index | intro]. apply ro_po_bind; [apply ro_po_unwrap | intro; apply ro_po_ret].
  - apply ro_po_bind; [apply ro_po_index | intro]. apply ro_po_bind; [apply ro_po_index | intro].
    apply ro_po_bind; [apply ro_po_mapM; intro; apply ro_po_unwrap | intro].
    apply ro_po_bind; [apply ro_po_unwrap | intro; apply ro_po_ret].
Qed.

Lemma ro_po_read_lines {St} ls : forall na layer act, ro_po (St:=St) (read_lines ls na layer act).
Proof.
  induction ls as [|i ls IH]; intros na layer act; cbn [read_lines]; [apply ro_po_ret|].
  repeat (destruct (String.eqb _ _); [apply IH|]).
  apply ro_po_bind; [apply ro_po_read_node | intro; apply IH].
Qed.

Lemma ro_mapM {St A B} (f : A -> M St B) :
  (forall x, readonly (f x)) -> forall l, readonly (mapM f l).
Proof.
  intros Hf l. induction l as [|x l IH]; cbn [mapM]; [apply ro_ret|].
  apply ro_bind; [apply Hf | intro; apply ro_bind; [exact IH | intro; apply ro_ret]].
Qed.

Lemma ro_read_lines {St} ls : forall na layer act, readonly (St:=St) (read_lines ls na layer act).
Proof.
  induction ls as [|i ls IH]; intros na layer act; cbn [read_lines]; [apply ro_ret|].
  repeat (destruct (String.eqb _ _); [apply IH|]).
  apply ro_bind; [|intro; apply IH].
  unfold read_node. destruct (_ =? 0)%nat.
  - apply ro_bind; [apply ro_index | intro]. apply ro_bind; [apply ro_unwrap | intro; apply ro_ret].
  - apply ro_bind; [apply ro_index | intro]. apply ro_bind; [apply ro_index | intro].
    apply ro_bind; [apply ro_mapM; intro; apply ro_unwrap | intro].
    apply ro_bind; [apply ro_unwrap | intro; apply ro_ret].
Qed.


(** ** Backpropagation without hidden layers *)

Lemma set_node_array_id net : set_node_array net (node_array net) = net.
Proof. destruct net; reflexivity. Qed.
Lemma set_node_array_twice net x y : set_node_array (set_node_array net x) y = set_node_array net y.
Proof. destruct net; reflexivity. Qed.

Lemma for_answer_nodes_gen f net a l :
  answer net = Some a -> node_array net !! a = Some l ->
  for_answer_nodes f net = (ROk tt, set_node_array net (<[a := map f l]> (node_array net))).
Proof.
  intros Ha Hl.
  set (emb := fun cur => set_node_array net (<[a := cur]> (node_array net))).
  assert (E0 : net = emb l) by (unfold emb; rewrite list_insert_id by exact Hl; symmetry; apply set_node_array_id).
  assert (Hlt : (a < length (node_array net))%nat) by (eapply lookup_lt_Some; eauto).
  assert (Hemb : forall cur, node_array (emb cur) !! a = Some cur)
    by (intro cur; unfold emb; cbn; apply list_lookup_insert_eq; exact Hlt).
  assert (Hans : forall cur, answer (emb cur) = Some a) by (intro; exact Ha).
  unfold for_answer_nodes. rewrite E0 at 1.
  rewrite (bind_ok _ _ _ (emb l) (emb l)) by reflexivity.
  rewrite (bind_ok _ _ _ a (emb l)) by (rewrite Hans; reflexivity).
  rewrite (bind_ok _ _ _ (length l) (emb l)) by (cbv [layer_len bind get index unwrap ret]; rewrite Hemb; reflexivity).
  rewrite <- imap_const_map.
  replace (set_node_array net (<[a := imap (fun _ => f) l]> (node_array net))) with (emb (imap (fun _ => f) l)) by reflexivity.
  apply (for_range_layer_map emb _ (fun _ => f) l); [| lia | apply layer_done_0].
  intros i cur x (Hlen & _ & Hge) Hx.
  assert (Hc : cur !! i = Some x) by (rewrite Hge; auto).
  cbn beta. rewrite (bind_ok _ _ _ (emb cur) (emb cur)) by reflexivity.
  rewrite (bind_ok _ _ _ a (emb cur)) by (rewrite Hans; reflexivity).
  rewrite (bind_ok _ _ _ _ _ (get_node_ok a i (emb cur) cur x (Hemb cur) Hc)).
  rewrite (put_node_ok a i (f x) (emb cur) cur (Hemb cur)) by (eapply lookup_lt_Some; eauto).
  unfold emb. rewrite set_node_array_twice. unfold set_node_array at 2. cbn [node_array]. rewrite list_insert_insert_eq. reflexivity.
Qed.


Lemma new_negative_hidden_layers_panics_witness :
  fst (new 2 2 2 (-3) Sigmoid world_ex) = RPanic.
Proof. apply (new_negative_hidden_layers_panics 2 2 2 (-3) Sigmoid world_ex). lia. Defined.

Lemma new_shape_witness :
  exists net w', new 2 3 1 2 Sigmoid world_ex = (ROk net, w') /\ length (node_array net) = 4%nat.
Proof.
  destruct (new_shape 2 3 1 2 Sigmoid world_ex ltac:(lia)) as (net & w' & E & _ & _ & _ & Hl & _).
  exists net, w'. split; [exact E | exact Hl].
Defined.

Lemma write_model_missing_bias_panics_witness :
  write_model 3 (mkNet [[node_new [] None]] (Some 0%nat) (Some 0%nat) None Sigmoid) "m" world_ex
  = (RPanic, set_files (advance world_ex)
       (<[model_file_name "m" (w_rng world_ex (w_pos world_ex) mod 2 ^ 32) := ""]> (w_files world_ex))).
Proof.
  apply (write_model_missing_bias_panics 2 (mkNet [[node_new [] None]] (Some 0%nat) (Some 0%nat) None Sigmoid) "m" world_ex);
    [set_solver | reflexivity | set_solver | constructor; constructor; reflexivity].
Defined.

